(** * Subscription lifecycle of [app.py]: payment webhook and expiry sweep

    A shallow embedding of the Flask handlers [instamojo_webhook] and
    [expiry_job] of [src/app.py], of the in-memory store [DB] they mutate, of
    the data file written by [save_db], and of the outbound calls they make
    (payment gateway, chat platform), followed by the properties of the
    subscription lifecycle.  The views [pay] and [run_expiry_now], the
    request built by [im_create_payment_request], and [load_db] and
    [save_db] at the level of the two paths they touch come after the
    handlers.

    Conventions of the model.
    - A Python [str] is a [string]; the text predicates ([isdigit], the
      whitespace skipped by [int]) are the ASCII ones.
    - A Python [dict] is an insertion-ordered association list; [dict_wf]
      states that its keys are pairwise distinct, which every Python dict
      satisfies.
    - Code that can raise runs in the monad [M]: a state transformer that
      ends in [Ok v] or in [Exn] (an instance of [Exception] was raised).
    - The outside world is a record of oracles indexed by a logical tick;
      every primitive that consults the world advances the tick.
    - The calls of the chat platform are taken at their word: a call either
      returns or raises. *)

From Stdlib Require Import ZArith List String Ascii Bool Lia DecimalString.

Import ListNotations.

Local Open Scope string_scope.

Local Open Scope Z_scope.

Local Open Scope list_scope.

(** ** Python values held in the store and returned by the gateway *)

(** A float is kept only for what the program does with one: [int(x)] and its
    truth value.  [FFinite m e] is [m * 2^e]; [FNonFinite] is nan or an
    infinity. *)
Inductive pyfloat : Type :=
| FFinite (m e : Z)
| FNonFinite.

#[local] Set Warnings "-register-all".

Inductive pyval : Type :=
| PNone
| PBool (b : bool)
| PInt (z : Z)
| PFloat (f : pyfloat)
| PStr (s : string)
| PList (l : list pyval)
| PDict (d : list (string * pyval)).

Definition dict : Type := list (string * pyval).

Module Py.

(** [d.get(k)] on an association list: the first binding of [k]. *)
Fixpoint dict_get {V : Type} (d : list (string * V)) (k : string) : option V :=
  match d with
  | [] => None
  | (k', v) :: rest => if String.eqb k' k then Some v else dict_get rest k
  end.

(** [d[k] = v]: an existing key keeps its position, a new key goes last. *)
Fixpoint dict_set {V : Type} (d : list (string * V)) (k : string) (v : V)
  : list (string * V) :=
  match d with
  | [] => [(k, v)]
  | (k', v') :: rest =>
      if String.eqb k' k then (k', v) :: rest else (k', v') :: dict_set rest k v
  end.

Definition keys {V : Type} (d : list (string * V)) : list string := map fst d.

Fixpoint mem (k : string) (l : list string) : bool :=
  match l with
  | [] => false
  | k' :: rest => String.eqb k' k || mem k rest
  end.

Fixpoint distinct (l : list string) : bool :=
  match l with
  | [] => true
  | k :: rest => negb (mem k rest) && distinct rest
  end.

(** The keys of a Python dict are pairwise distinct. *)
Definition dict_wf {V : Type} (d : list (string * V)) : bool := distinct (keys d).


(** [bool(v)] *)
Definition truthy (v : pyval) : bool :=
  match v with
  | PNone => false
  | PBool b => b
  | PInt z => negb (z =? 0)
  | PFloat (FFinite m _) => negb (m =? 0)
  | PFloat FNonFinite => true
  | PStr s => negb (String.eqb s "")
  | PList l => match l with [] => false | _ => true end
  | PDict d => match d with [] => false | _ => true end
  end.

(** [a or b] *)
Definition por (a b : pyval) : pyval := if truthy a then a else b.

(** [v.get(k, dflt)]; [None] is the AttributeError of a value that is not a
    dict. *)
Definition get (v : pyval) (k : string) (dflt : pyval) : option pyval :=
  match v with
  | PDict d => Some (match dict_get d k with Some x => x | None => dflt end)
  | _ => None
  end.

(** [v == s] for a string literal [s]. *)
Definition eq_str (v : pyval) (s : string) : bool :=
  match v with
  | PStr t => String.eqb t s
  | _ => false
  end.

Definition is_digit (c : ascii) : bool :=
  let n := nat_of_ascii c in (48 <=? n)%nat && (n <=? 57)%nat.

Definition digit_val (c : ascii) : Z := Z.of_nat (nat_of_ascii c) - 48.

Fixpoint all_digits (s : string) : bool :=
  match s with
  | EmptyString => true
  | String c rest => is_digit c && all_digits rest
  end.

(** [s.isdigit()] *)
Definition isdigit (s : string) : bool :=
  match s with
  | EmptyString => false
  | _ => all_digits s
  end.

(** The characters [int] skips around a literal: tab, line feed, vertical
    tab, form feed, carriage return, the four separators and the space. *)
Definition is_space (c : ascii) : bool :=
  let n := nat_of_ascii c in
  ((9 <=? n)%nat && (n <=? 13)%nat) || ((28 <=? n)%nat && (n <=? 32)%nat).

Fixpoint lstrip (s : string) : string :=
  match s with
  | String c rest => if is_space c then lstrip rest else s
  | EmptyString => EmptyString
  end.

Fixpoint all_space (s : string) : bool :=
  match s with
  | EmptyString => true
  | String c rest => is_space c && all_space rest
  end.

(** Digits with single underscores between them, then optional trailing
    whitespace.  [after_digit] tells whether the previous character was a
    digit. *)
Fixpoint int_digits (acc : Z) (after_digit : bool) (s : string) : option Z :=
  match s with
  | EmptyString => if after_digit then Some acc else None
  | String c rest =>
      if is_digit c then int_digits (10 * acc + digit_val c) true rest
      else if Ascii.eqb c "_"%char then
        if after_digit then int_digits acc false rest else None
      else if after_digit && all_space s then Some acc
      else None
  end.

(** [int(s)] for a string; [None] is the ValueError. *)
Definition int_of_str (s : string) : option Z :=
  match lstrip s with
  | String c rest =>
      if Ascii.eqb c "-"%char then option_map Z.opp (int_digits 0 false rest)
      else if Ascii.eqb c "+"%char then int_digits 0 false rest
      else int_digits 0 false (String c rest)
  | EmptyString => None
  end.

(** [int(x)] for a float: truncation toward zero. *)
Definition int_of_float (f : pyfloat) : option Z :=
  match f with
  | FFinite m e => Some (if 0 <=? e then m * 2 ^ e else Z.quot m (2 ^ (- e)))
  | FNonFinite => None
  end.

(** [int(v)]; [None] is the TypeError or ValueError. *)
Definition int (v : pyval) : option Z :=
  match v with
  | PInt z => Some z
  | PBool b => Some (if b then 1 else 0)
  | PFloat f => int_of_float f
  | PStr s => int_of_str s
  | PNone | PList _ | PDict _ => None
  end.

(** [str(n)] for an integer. *)
Definition str_of_int (z : Z) : string := NilZero.string_of_int (Z.to_int z).

(** [str(v)] for the scalars.  The text of a float, a list or a dict is not
    modelled ([None]): it always holds a character that is not a digit. *)
Definition str (v : pyval) : option string :=
  match v with
  | PNone => Some "None"
  | PBool b => Some (if b then "True" else "False")
  | PInt z => Some (str_of_int z)
  | PStr s => Some s
  | PFloat _ | PList _ | PDict _ => None
  end.

End Py.

(** ** The world outside the program *)

(** A reading of the clock: [int(t.timestamp())] and [t.isoformat()]. *)
Record Instant : Type := { epoch : Z; iso : string }.

(** The text of a direct message, up to its fixed wording. *)
Inductive Message : Type :=
| MsgInvite (invite : string)   (* "Payment Successful!" with the invite link *)
| MsgRejoin (uid : string).     (* subscription over, with the /pay?tg=uid link *)

(** Calls that leave the process, in the order they are made. *)
Inductive Event : Type :=
| EvLookup (req_id : string)            (* GET payment-requests/<req_id>/ *)
| EvInvite (expire_date : Z)            (* create_chat_invite_link, member_limit=1 *)
| EvBan (user_id : Z)                   (* ban_chat_member *)
| EvUnban (user_id : Z)                 (* unban_chat_member, only_if_banned *)
| EvDM (user_id : Z) (text : Message)   (* send_message *)
| EvSave (data : dict).                 (* save_db(data) *)

(** What the world answers at a given tick.  [None] or [false] is a call
    that raises. *)
Record World : Type := {
  clock : nat -> Instant;
  gateway : nat -> string -> option pyval;
  invite_link : nat -> Z -> option string;
  ban_ok : nat -> Z -> bool;
  unban_ok : nat -> Z -> bool;
  disk_ok : nat -> bool
}.

(** The process state: the global [DB], the content of [DATA_FILE] (absent
    until the first save), the calls made so far and the logical tick. *)
Record State : Type := {
  DB : dict;
  disk : option dict;
  trace : list Event;
  tick : nat
}.

(** ** Code that can raise *)

Inductive res (A : Type) : Type :=
| Ok (a : A)
| Exn.

Arguments Ok {A} a.

Arguments Exn {A}.

Definition M (A : Type) : Type := State -> res A * State.

Definition ret {A : Type} (a : A) : M A := fun s => (Ok a, s).

Definition raise {A : Type} : M A := fun s => (Exn, s).

Definition bind {A B : Type} (m : M A) (k : A -> M B) : M B :=
  fun s => match m s with
           | (Ok a, s') => k a s'
           | (Exn, s') => (Exn, s')
           end.

(** An operation of [Py] that raises when it has no result. *)
Definition lift {A : Type} (o : option A) : M A :=
  match o with
  | Some a => ret a
  | None => raise
  end.

Declare Scope py_scope.

Delimit Scope py_scope with py.

Notation "x <- m ;; k" := (bind m (fun x => k))
  (at level 100, m at next level, right associativity) : py_scope.

Notation "m ;; k" := (bind m (fun _ => k))
  (at level 100, right associativity) : py_scope.

Local Open Scope py_scope.

Definition bump (s : State) : State :=
  {| DB := DB s; disk := disk s; trace := trace s; tick := S (tick s) |}.

Definition emit (e : Event) (s : State) : State :=
  {| DB := DB s; disk := disk s; trace := trace s ++ [e]; tick := S (tick s) |}.

(** [datetime.now(IST)] and [time.time()] *)
Definition now (w : World) : M Instant :=
  fun s => (Ok (clock w (tick s)), bump s).

(** [im_get_payment_request(req_id)]: the value under "payment_request" of
    the gateway's answer, or an exception (transport, HTTP status, body). *)
Definition im_get_payment_request (w : World) (req_id : string) : M pyval :=
  fun s => match gateway w (tick s) req_id with
           | Some pr => (Ok pr, emit (EvLookup req_id) s)
           | None => (Exn, emit (EvLookup req_id) s)
           end.

(** [create_single_use_invite(ttl_seconds)] *)
Definition create_single_use_invite (w : World) (ttl_seconds : Z) : M string :=
  t <- now w ;;
  let expire_unix := epoch t + Z.max 60 ttl_seconds in
  fun s => match invite_link w (tick s) expire_unix with
           | Some link => (Ok link, emit (EvInvite expire_unix) s)
           | None => (Exn, emit (EvInvite expire_unix) s)
           end.

(** [bot.ban_chat_member(chat_id=CHANNEL_ID, user_id=user_id)] *)
Definition ban_chat_member (w : World) (user_id : Z) : M unit :=
  fun s => (if ban_ok w (tick s) user_id then Ok tt else Exn,
            emit (EvBan user_id) s).

(** [bot.unban_chat_member(chat_id=CHANNEL_ID, user_id=user_id,
    only_if_banned=True)] *)
Definition unban_chat_member (w : World) (user_id : Z) : M unit :=
  fun s => (if unban_ok w (tick s) user_id then Ok tt else Exn,
            emit (EvUnban user_id) s).

(** [send_dm_blocking(user_id, text)]: a failure of [send_message] is
    swallowed inside.  The webhook runs it on a daemon thread. *)
Definition send_dm_blocking (user_id : Z) (text : Message) : M unit :=
  fun s => (Ok tt, emit (EvDM user_id text) s).

(** [save_db(DB)]: the whole mapping goes to a temporary file that replaces
    [DATA_FILE]; when a step raises, [DATA_FILE] keeps its content. *)
Definition save_db (w : World) : M unit :=
  fun s => if disk_ok w (tick s)
           then (Ok tt, {| DB := DB s; disk := Some (DB s);
                           trace := trace s ++ [EvSave (DB s)];
                           tick := S (tick s) |})
           else (Exn, emit (EvSave (DB s)) s).

(** [load_db()]: a missing or unreadable file is an empty mapping. *)
Definition load_db (s : State) : dict :=
  match disk s with
  | Some d => d
  | None => []
  end.

(** [DB[key] = value] *)
Definition db_set (key : string) (value : pyval) : M unit :=
  fun s => (Ok tt, {| DB := Py.dict_set (DB s) key value; disk := disk s;
                      trace := trace s; tick := tick s |}).

(** [DB[uid][field] = value]: KeyError without [uid], TypeError when the
    record is not a dict. *)
Definition db_rec_set (uid field : string) (value : pyval) : M unit :=
  fun s => match Py.dict_get (DB s) uid with
           | Some (PDict r) =>
               (Ok tt, {| DB := Py.dict_set (DB s) uid
                                  (PDict (Py.dict_set r field value));
                          disk := disk s; trace := trace s; tick := tick s |})
           | _ => (Exn, s)
           end.

(** ** The payment webhook *)

(** What a view hands back to Flask: a body with its status code, or an
    exception that leaves the view (Flask then answers 500). *)
Inductive Reply : Type :=
| Resp (body : string) (code : Z)
| Unhandled.

(** Where the verification part of the webhook ends. *)
Inductive Verdict : Type :=
| Reject (body : string)   (* an early [return body, 200] *)
| Raised                   (* an exception outside every [try] *)
| Verified (tg_id : Z).    (* falls through to the activation *)

(** [form.get("payment_request_id") or form.get("payment_request") or ""] *)
Definition request_id (form : list (string * string)) : string :=
  match Py.dict_get form "payment_request_id" with
  | Some (String c r) => String c r
  | _ => match Py.dict_get form "payment_request" with
         | Some (String c r) => String c r
         | _ => ""
         end
  end.

(** [status in ("Completed", "Credit", "Success")] *)
Definition accepted (status : pyval) : bool :=
  Py.eq_str status "Completed" || Py.eq_str status "Credit"
  || Py.eq_str status "Success".

(** Configuration read from the environment at start-up. *)
Record Config : Type := {
  SUBSCRIPTION_DAYS : Z;
  INVITE_LINK_TTL_SECONDS : Z
}.

Section Handlers.

Variable cfg : Config.

(** [json.loads]; [None] when it raises. *)
Variable json_loads : string -> option pyval.

(** The metadata as the webhook reads it: [pr.get("metadata") or {}], decoded
    when it is a string, [{}] when decoding raises. *)
Definition read_meta (m : pyval) : pyval :=
  match Py.por m (PDict []) with
  | PStr t => match json_loads t with
              | Some v => v
              | None => PDict []
              end
  | meta => meta
  end.

(** From [status = (pr or {}).get("status", "")] to [tg_id = int(tg_id_str)]. *)
Definition check_payment (pr : pyval) : Verdict :=
  match Py.get (Py.por pr (PDict [])) "status" (PStr "") with
  | None => Raised
  | Some status =>
      if negb (accepted status) then Reject "ignored"
      else
        match Py.get pr "metadata" PNone with
        | None => Raised
        | Some m =>
            match Py.get (read_meta m) "telegram_user_id" (PStr "") with
            | None => Raised
            | Some v =>
                match Py.str v with
                | Some tg_id_str =>
                    if Py.isdigit tg_id_str then
                      match Py.int_of_str tg_id_str with
                      | Some tg_id => Verified tg_id
                      | None => Raised
                      end
                    else Reject "no user"
                | None => Reject "no user"
                end
            end
        end
  end.

(** The record written by a payment. *)
Definition fresh_record (expiry_ts : Z) (last_payment : string) : pyval :=
  PDict [("expiry_ts", PInt expiry_ts);
         ("last_payment", PStr last_payment);
         ("status", PStr "active")].

(** The body of the [try] that follows a verified payment.  In the zone of
    [IST] a day is 86400 seconds throughout. *)
Definition activate (w : World) (tg_id : Z) : M unit :=
  invite <- create_single_use_invite w (INVITE_LINK_TTL_SECONDS cfg) ;;
  t1 <- now w ;;
  let expiry := epoch t1 + 86400 * SUBSCRIPTION_DAYS cfg in
  t2 <- now w ;;
  db_set (Py.str_of_int tg_id) (fresh_record expiry (iso t2)) ;;
  save_db w ;;
  send_dm_blocking tg_id (MsgInvite invite).

(** [POST /instamojo-webhook] *)
Definition instamojo_webhook (w : World) (form : list (string * string))
  : State -> Reply * State :=
  fun s =>
    let req_id := request_id form in
    if String.eqb req_id "" then (Resp "missing request id" 200, s)
    else
      match im_get_payment_request w req_id s with
      | (Exn, s1) => (Resp "verify failed" 200, s1)
      | (Ok pr, s1) =>
          match check_payment pr with
          | Reject body => (Resp body 200, s1)
          | Raised => (Unhandled, s1)
          | Verified tg_id =>
              (* try: ... except Exception: pass *)
              (Resp "ok" 200, snd (activate w tg_id s1))
          end
      end.

(** ** The expiry sweep *)

(** [rec.get("status") == "active" and int(rec.get("expiry_ts", 0)) <= now_ts];
    [None] when evaluating it raises. *)
Definition is_due (now_ts : Z) (rec : pyval) : option bool :=
  match Py.get rec "status" PNone with
  | None => None
  | Some st =>
      if Py.eq_str st "active" then
        match Py.get rec "expiry_ts" (PInt 0) with
        | None => None
        | Some e => match Py.int e with
                    | Some n => Some (n <=? now_ts)
                    | None => None
                    end
        end
      else Some false
  end.

(** The body of the [try] inside the loop, for one item of the snapshot;
    its result is whether [changed = True] was reached. *)
Definition sweep_body (w : World) (now_ts : Z) (uid : string) (rec : pyval)
  : M bool :=
  due <- lift (is_due now_ts rec) ;;
  if due : bool then
    id1 <- lift (Py.int_of_str uid) ;;
    ban_chat_member w id1 ;;
    id2 <- lift (Py.int_of_str uid) ;;
    unban_chat_member w id2 ;;
    db_rec_set uid "status" (PStr "expired") ;;
    t <- now w ;;
    db_rec_set uid "expired_at" (PStr (iso t)) ;;
    id3 <- lift (Py.int_of_str uid) ;;
    send_dm_blocking id3 (MsgRejoin uid) ;;
    ret true
  else ret false.

(** [for uid, rec in list(DB.items()): try: ... except Exception: continue] *)
Fixpoint sweep_loop (w : World) (now_ts : Z) (items : dict) (changed : bool)
  (s : State) : bool * State :=
  match items with
  | [] => (changed, s)
  | (uid, rec) :: rest =>
      match sweep_body w now_ts uid rec s with
      | (Ok c, s') => sweep_loop w now_ts rest (c || changed) s'
      | (Exn, s') => sweep_loop w now_ts rest changed s'
      end
  end.

(** [expiry_job()] *)
Definition expiry_job (w : World) : M unit :=
  t <- now w ;;
  let now_ts := epoch t in
  fun s =>
    match DB s with
    | [] => (Ok tt, s)
    | _ =>
        let '(changed, s') := sweep_loop w now_ts (DB s) false s in
        if changed then save_db w s' else (Ok tt, s')
    end.

End Handlers.


(** ** Notions used to state the properties *)

(** The record [PDict r] after the two assignments of the sweep. *)
Definition mark_expired (r : dict) (expired_at : string) : pyval :=
  PDict (Py.dict_set (Py.dict_set r "status" (PStr "expired"))
           "expired_at" (PStr expired_at)).

(** The calls made between state [s] and a later state [s']. *)
Definition new_events (s s' : State) : list Event :=
  skipn (List.length (trace s)) (trace s').

Definition is_save (e : Event) : bool :=
  match e with
  | EvSave _ => true
  | _ => false
  end.

(** How many times [save_db] was called in a list of events. *)
Definition saves (evs : list Event) : nat := List.length (filter is_save evs).

(** The time the sweep compares expiries with. *)
Definition sweep_now (w : World) (s : State) : Z := epoch (clock w (tick s)).

(** The state after the iteration that expires [uid], whose record was
    [PDict r] and whose numeric identity is [id]. *)
Definition expired_state (w : World) (uid : string) (id : Z) (r : dict)
  (s : State) : State :=
  {| DB := Py.dict_set (DB s) uid
             (mark_expired r (iso (clock w (S (S (tick s))))));
     disk := disk s;
     trace := trace s ++ [EvBan id; EvUnban id; EvDM id (MsgRejoin uid)];
     tick := S (S (S (S (tick s)))) |}.

(** A call made by the sweep on behalf of the item [(uid, rec)]. *)
Definition item_event (now_ts : Z) (uid : string) (rec : pyval) (e : Event)
  : Prop :=
  is_due now_ts rec = Some true /\
  exists id, Py.int_of_str uid = Some id /\
             (e = EvBan id \/ e = EvUnban id \/ e = EvDM id (MsgRejoin uid)).

(** A call made by the sweep on behalf of some item of the snapshot. *)
Definition sweep_event (now_ts : Z) (items : dict) (e : Event) : Prop :=
  exists uid rec, In (uid, rec) items /\ item_event now_ts uid rec e.

(** The item was left as it was.  When it was due and its key is a number, a
    revocation was attempted and one of its two calls raised. *)
Definition kept (w : World) (now_ts : Z) (uid : string) (rec : pyval)
  (db' : dict) (evs : list Event) : Prop :=
  Py.dict_get db' uid = Some rec /\
  (is_due now_ts rec = Some true ->
   forall id, Py.int_of_str uid = Some id ->
     In (EvBan id) evs /\
     exists t, ban_ok w t id = false \/ unban_ok w (S t) id = false).

(** The item was due, both calls of its revocation returned, and it now reads
    [expired] with the time of the transition. *)
Definition expired_by (w : World) (now_ts : Z) (uid : string) (rec : pyval)
  (db' : dict) (evs : list Event) : Prop :=
  exists r id t,
    rec = PDict r /\ is_due now_ts rec = Some true /\
    Py.int_of_str uid = Some id /\
    ban_ok w t id = true /\ unban_ok w (S t) id = true /\
    Py.dict_get db' uid = Some (mark_expired r (iso (clock w (S (S t))))) /\
    In (EvBan id) evs /\ In (EvUnban id) evs /\
    In (EvDM id (MsgRejoin uid)) evs.

(** The [expire_date] asked of the platform by an activation that starts in
    state [s1]. *)
Definition invite_expiry (cfg : Config) (w : World) (s1 : State) : Z :=
  epoch (clock w (tick s1)) + Z.max 60 (INVITE_LINK_TTL_SECONDS cfg).

(** The store after the assignment of an activation that starts in [s1]. *)
Definition paid_db (cfg : Config) (w : World) (tg_id : Z) (s1 : State)
  : dict :=
  Py.dict_set (DB s1) (Py.str_of_int tg_id)
    (fresh_record (epoch (clock w (S (S (tick s1))))
                   + 86400 * SUBSCRIPTION_DAYS cfg)
                  (iso (clock w (S (S (S (tick s1))))))).

(** The webhook delivery [form] in state [s] verifies a payment of [tg_id]
    and its activation runs to the end: the link is issued and the store is
    saved. *)
Definition activates (cfg : Config) (json_loads : string -> option pyval)
  (w : World) (form : list (string * string)) (s : State) (tg_id : Z) : Prop :=
  request_id form <> "" /\
  exists pr, gateway w (tick s) (request_id form) = Some pr /\
             check_payment json_loads pr = Verified tg_id /\
             fst (activate cfg w tg_id (emit (EvLookup (request_id form)) s)) = Ok tt.



(** The states reached from a start with an empty store by webhook
    deliveries and sweeps, whatever the world answers. *)
Inductive reachable (cfg : Config) (json_loads : string -> option pyval)
  : State -> Prop :=
| reach_start s :
    DB s = [] -> disk s = None -> reachable cfg json_loads s
| reach_webhook w form s :
    reachable cfg json_loads s ->
    reachable cfg json_loads (snd (instamojo_webhook cfg json_loads w form s))
| reach_sweep w s :
    reachable cfg json_loads s ->
    reachable cfg json_loads (snd (expiry_job w s)).

(** A record as the two handlers write them: active without [expired_at], or
    expired with it. *)
Definition record_ok (v : pyval) : Prop :=
  exists r, v = PDict r /\
    ((Py.dict_get r "status" = Some (PStr "active") /\
      Py.dict_get r "expired_at" = None) \/
     (Py.dict_get r "status" = Some (PStr "expired") /\
      exists t, Py.dict_get r "expired_at" = Some (PStr t))).

Definition store_ok (d : dict) : Prop :=
  forall k v, In (k, v) d -> record_ok v.

(** ** Handlers running on several threads *)

(** The handlers run on threads of one process (a request thread per
    delivery, a worker thread of the scheduler for the sweep) over the one
    global [DB].  A thread is what is left of a handler: nothing, or a block
    that runs without interruption and yields the rest.  The blocks are cut
    where the handler calls out of the process. *)
Inductive Thread : Type :=
| Done
| Atom (step : State -> Thread * State).

(** A thread run to its end with nothing in between. *)
Fixpoint run_alone (th : Thread) (s : State) {struct th} : State :=
  match th with
  | Done => s
  | Atom step => let (th', s') := step s in run_alone th' s'
  end.

(** Two threads under a schedule: [true] lets the first run its next block,
    [false] the second; when the schedule ends the first runs to its end,
    then the second. *)
Fixpoint run (sched : list bool) (a b : Thread) (s : State) : State :=
  match sched with
  | [] => run_alone b (run_alone a s)
  | true :: rest =>
      match a with
      | Atom step => let (a', s') := step s in run rest a' b s'
      | Done => run rest a b s
      end
  | false :: rest =>
      match b with
      | Atom step => let (b', s') := step s in run rest a b' s'
      | Done => run rest a b s
      end
  end.

(** The two assignments of the sweep, the clock read between them, and the
    message. *)
Definition mark_block (w : World) (uid : string) (id : Z) : M unit :=
  db_rec_set uid "status" (PStr "expired") ;;
  t <- now w ;;
  db_rec_set uid "expired_at" (PStr (iso t)) ;;
  send_dm_blocking id (MsgRejoin uid).

(** The loop of [expiry_job] over what is left of the snapshot, then the
    save; the blocks of an iteration are the ban, the unban, and the
    assignments with the message. *)
Fixpoint sweep_items (w : World) (now_ts : Z) (items : dict) (changed : bool)
  : Thread :=
  match items with
  | [] => if changed then Atom (fun s => (Done, snd (save_db w s))) else Done
  | (uid, rec) :: rest =>
      match is_due now_ts rec with
      | Some true =>
          match Py.int_of_str uid with
          | Some id =>
              Atom (fun s =>
                match ban_chat_member w id s with
                | (Exn, s1) => (sweep_items w now_ts rest changed, s1)
                | (Ok _, s1) =>
                    (Atom (fun s =>
                       match unban_chat_member w id s with
                       | (Exn, s2) => (sweep_items w now_ts rest changed, s2)
                       | (Ok _, s2) =>
                           (Atom (fun s =>
                              match mark_block w uid id s with
                              | (Exn, s3) =>
                                  (sweep_items w now_ts rest changed, s3)
                              | (Ok _, s3) =>
                                  (sweep_items w now_ts rest true, s3)
                              end), s2)
                       end), s1)
                end)
          | None => sweep_items w now_ts rest changed
          end
      | _ => sweep_items w now_ts rest changed
      end
  end.

(** [expiry_job] as a thread: the clock, the emptiness test and the snapshot
    form the first block. *)
Definition sweep_thread (w : World) : Thread :=
  Atom (fun s => (sweep_items w (epoch (clock w (tick s))) (DB s) false, bump s)).

(** The activation as a thread: the link, the assignment, the save, the
    message. *)
Definition activate_thread (cfg : Config) (w : World) (tg_id : Z) : Thread :=
  Atom (fun s =>
    match create_single_use_invite w (INVITE_LINK_TTL_SECONDS cfg) s with
    | (Exn, s1) => (Done, s1)
    | (Ok invite, s1) =>
        (Atom (fun s =>
           let '(_, s2) :=
             (t1 <- now w ;;
              t2 <- now w ;;
              db_set (Py.str_of_int tg_id)
                (fresh_record (epoch t1 + 86400 * SUBSCRIPTION_DAYS cfg)
                   (iso t2))) s in
           (Atom (fun s =>
              match save_db w s with
              | (Exn, s3) => (Done, s3)
              | (Ok _, s3) =>
                  (Atom (fun s =>
                     (Done, snd (send_dm_blocking tg_id (MsgInvite invite) s))),
                   s3)
              end), s2)), s1)
    end).

(** [instamojo_webhook] as a thread. *)
Definition webhook_thread (cfg : Config) (json_loads : string -> option pyval)
  (w : World) (form : list (string * string)) : Thread :=
  if String.eqb (request_id form) "" then Done
  else
    Atom (fun s =>
      match im_get_payment_request w (request_id form) s with
      | (Exn, s1) => (Done, s1)
      | (Ok pr, s1) =>
          (match check_payment json_loads pr with
           | Verified tg_id => activate_thread cfg w tg_id
           | _ => Done
           end, s1)
      end).

(** The status of each record, by key. *)
Definition statuses (d : dict) : list (string * option pyval) :=
  map (fun kv => (fst kv, Py.get (snd kv) "status" PNone)) d.

(** ** The claims that fail, as they are worded *)


(** C10 as the claim words it, for a subscriber that had no record: after a
    delivery whose activation failed, the store holds no record for the
    identity. *)
Definition left_without_record (cfg : Config)
  (json_loads : string -> option pyval) (w : World)
  (form : list (string * string)) (s : State) (tg_id : Z) : Prop :=
  Py.dict_get (DB (snd (instamojo_webhook cfg json_loads w form s)))
    (Py.str_of_int tg_id) = None.

(** C9 as the claim words it, for a sweep and a delivery: whatever the
    schedule, the records end with the statuses they have after one of the
    two orders in which the handlers can run in turn. *)
Definition serialisable (cfg : Config) (json_loads : string -> option pyval)
  (w : World) (form : list (string * string)) (s : State) (sched : list bool)
  : Prop :=
  let sweep := sweep_thread w in
  let delivery := webhook_thread cfg json_loads w form in
  statuses (DB (run sched sweep delivery s))
    = statuses (DB (run [] sweep delivery s)) \/
  statuses (DB (run sched sweep delivery s))
    = statuses (DB (run [] delivery sweep s)).

(** ** Sample inputs *)

Definition cfg0 : Config :=
  {| SUBSCRIPTION_DAYS := 30; INVITE_LINK_TTL_SECONDS := 600 |}.

(** A decoder that knows three texts; it stands for [json.loads] where a
    statement is instantiated. *)
Definition sample_json_loads (t : string) : option pyval :=
  if String.eqb t "42" then Some (PInt 42)
  else if String.eqb t "{}" then Some (PDict [])
  else if String.eqb t "null" then Some PNone
  else None.

Definition sample_instant (t : nat) : Instant :=
  {| epoch := 1700000000 + Z.of_nat t; iso := "2023-11-15T03:43:20+05:30" |}.

(** The gateway's answer for a paid request of subscriber 42. *)
Definition paid_request : pyval :=
  PDict [("status", PStr "Credit");
         ("metadata", PDict [("telegram_user_id", PStr "42")])].

(** A world in which every call succeeds. *)
Definition calm_world : World :=
  {| clock := sample_instant;
     gateway := fun _ _ => Some paid_request;
     invite_link := fun _ _ => Some "https://t.me/+AbCdEf";
     ban_ok := fun _ _ => true;
     unban_ok := fun _ _ => true;
     disk_ok := fun _ => true |}.

(** The platform refuses to mint invite links. *)
Definition world_without_invites : World :=
  {| clock := sample_instant;
     gateway := fun _ _ => Some paid_request;
     invite_link := fun _ _ => None;
     ban_ok := fun _ _ => true;
     unban_ok := fun _ _ => true;
     disk_ok := fun _ => true |}.

(** The data file cannot be written. *)
Definition world_with_full_disk : World :=
  {| clock := sample_instant;
     gateway := fun _ _ => Some paid_request;
     invite_link := fun _ _ => Some "https://t.me/+AbCdEf";
     ban_ok := fun _ _ => true;
     unban_ok := fun _ _ => true;
     disk_ok := fun _ => false |}.

(** Banning subscriber [id] raises; everything else succeeds. *)
Definition world_where_ban_fails (id : Z) : World :=
  {| clock := sample_instant;
     gateway := fun _ _ => Some paid_request;
     invite_link := fun _ _ => Some "https://t.me/+AbCdEf";
     ban_ok := fun _ i => negb (i =? id);
     unban_ok := fun _ _ => true;
     disk_ok := fun _ => true |}.

Definition world_with_bare_metadata : World :=
  {| clock := sample_instant;
     gateway := fun _ _ =>
       Some (PDict [("status", PStr "Credit"); ("metadata", PStr "42")]);
     invite_link := fun _ _ => Some "https://t.me/+AbCdEf";
     ban_ok := fun _ _ => true;
     unban_ok := fun _ _ => true;
     disk_ok := fun _ => true |}.

(** Every call succeeds, and the clock is some years on. *)
Definition world_years_later : World :=
  {| clock := fun t => {| epoch := 1800000000 + Z.of_nat t;
                          iso := "2027-01-15T13:30:00+05:30" |};
     gateway := fun _ _ => Some paid_request;
     invite_link := fun _ _ => Some "https://t.me/+AbCdEf";
     ban_ok := fun _ _ => true;
     unban_ok := fun _ _ => true;
     disk_ok := fun _ => true |}.

Definition form0 : list (string * string) := [("payment_request_id", "req_1")].

(** The process right after start-up without a data file. *)
Definition initial_state : State :=
  {| DB := []; disk := None; trace := []; tick := 0 |}.

Definition with_db (d : dict) : State :=
  {| DB := d; disk := Some d; trace := []; tick := 0 |}.

Definition subscription (expiry_ts : Z) (status : string) : pyval :=
  PDict [("expiry_ts", PInt expiry_ts);
         ("last_payment", PStr "2023-10-16T03:43:20+05:30");
         ("status", PStr status)].


(** A schedule that lets the sweep run up to its unban, then the whole
    delivery, then the rest of the sweep. *)
Definition delivery_inside_sweep : list bool :=
  [true; true; true; false; false; false; false; false].

From Stdlib Require Import DecimalPos DecimalZ.

(** ** The data file, path by path *)

Module DataFile.

(** The two paths [save_db] and [load_db] touch, [DATA_FILE] and
    [DATA_FILE + ".tmp"], each absent or holding a text. *)
Record Files : Type := {
  data_file : option string;
  tmp_file : option string
}.

(** Where a call of [save_db] stops. *)
Inductive SaveFault : Type :=
| NoFault
| OpenFails                    (* open(tmp, "w") raises *)
| WriteFails (written : nat)   (* json.dump raises once this much is written *)
| ReplaceFails.                (* os.replace raises *)

Section Codec.

(** The text [json.dump(data, f, ensure_ascii=False, indent=2)] writes. *)
Variable json_dumps : pyval -> string.

(** [json.load]; [None] when it raises. *)
Variable json_loads : string -> option pyval.

(** [save_db(data)]: the text goes to the temporary path, which then
    replaces [DATA_FILE] in one step. *)
Definition save_db (fault : SaveFault) (data : pyval) (fs : Files)
  : res unit * Files :=
  match fault with
  | OpenFails => (Exn, fs)
  | WriteFails n =>
      (Exn, {| data_file := data_file fs;
               tmp_file := Some (substring 0 n (json_dumps data)) |})
  | ReplaceFails =>
      (Exn, {| data_file := data_file fs;
               tmp_file := Some (json_dumps data) |})
  | NoFault =>
      (Ok tt, {| data_file := Some (json_dumps data); tmp_file := None |})
  end.

(** [load_db()]: [{}] without the file, and [{}] when opening or decoding
    raises ([readable] tells whether [open] succeeds). *)
Definition load_db (readable : bool) (fs : Files) : pyval :=
  match data_file fs with
  | None => PDict []
  | Some text =>
      if readable then
        match json_loads text with
        | Some v => v
        | None => PDict []
        end
      else PDict []
  end.

(** A run of calls of [save_db], each with the point where it stops. *)
Fixpoint save_all (calls : list (SaveFault * pyval)) (fs : Files) : Files :=
  match calls with
  | [] => fs
  | (fault, data) :: rest => save_all rest (snd (save_db fault data fs))
  end.

(** The data of the last call that did not stop early. *)
Fixpoint last_saved (calls : list (SaveFault * pyval)) (before : option pyval)
  : option pyval :=
  match calls with
  | [] => before
  | (NoFault, data) :: rest => last_saved rest (Some data)
  | _ :: rest => last_saved rest before
  end.

End Codec.

End DataFile.

(** ** The manual trigger of the sweep *)

(** What [GET /run-expiry] answers: [abort(401)], the JSON body with the
    time, or an exception that leaves the view. *)
Inductive CronReply : Type :=
| Cron401
| CronRan (ts : Z)
| CronUnhandled.

(** [run_expiry_now()], with the configured [CRON_SECRET] and the value of
    the [X-CRON-SECRET] header of the request, if any. *)
Definition run_expiry_now (CRON_SECRET : string) (header : option string)
  (w : World) : State -> CronReply * State :=
  fun s =>
    if negb (String.eqb CRON_SECRET "")
       && negb (match header with
                | Some h => String.eqb h CRON_SECRET
                | None => false
                end)
    then (Cron401, s)
    else
      match expiry_job w s with
      | (Exn, s1) => (CronUnhandled, s1)
      | (Ok _, s1) => (CronRan (epoch (clock w (tick s1))), bump s1)
      end.

(** ** Creating a payment request *)

Module Pay.

(** [s.rstrip()] and [s.strip()] *)
Fixpoint rstrip (s : string) : string :=
  match s with
  | EmptyString => EmptyString
  | String c rest => if Py.all_space s then EmptyString else String c (rstrip rest)
  end.

Definition strip (s : string) : string := rstrip (Py.lstrip s).

(** [v[k]] for a string key; [None] is the KeyError or TypeError. *)
Definition item (v : pyval) (k : string) : option pyval :=
  match v with
  | PDict d => Py.dict_get d k
  | _ => None
  end.

(** The configuration the payment side reads from the environment. *)
Record PayConfig : Type := {
  PRICE_INR : Z;
  BASE_URL : string;
  IM_BEARER : string;
  IM_KEY : string;
  IM_TOKEN : string
}.

Definition IM_API_BASE : string := "https://www.instamojo.com/api/1.1".

(** A POST as [requests.post] receives it. *)
Record Post : Type := {
  post_url : string;
  post_data : string;
  post_headers : list (string * string)
}.

(** What [GET /pay] answers; [PayRedirect url] is [redirect(url, code=302)]. *)
Inductive PayReply : Type :=
| PayInvalid        (* "Invalid user", 400 *)
| PayRedirect (url : pyval)
| PayFailed.        (* "Failed to create payment: ...", 500 *)

Section Gateway.

Variable pc : PayConfig.

(** [requests.utils.quote] *)
Variable quote : string -> string.

(** [json.dumps] *)
Variable json_dumps : pyval -> string.

(** The gateway: the decoded body of the answer to a POST, or [None] when
    the call, [raise_for_status] or the decoding raises. *)
Variable post : Post -> option pyval.

(** [im_headers()] *)
Definition im_headers : list (string * string) :=
  if negb (String.eqb (IM_BEARER pc) "") then
    [("Authorization", ("Bearer " ++ IM_BEARER pc)%string);
     ("Content-Type", "application/x-www-form-urlencoded")]
  else
    [("X-Api-Key", IM_KEY pc); ("X-Auth-Token", IM_TOKEN pc);
     ("Content-Type", "application/x-www-form-urlencoded")].

(** The text under "metadata" of a request made for [tg_id]. *)
Definition metadata_text (tg_id : Z) : string :=
  json_dumps (PDict [("telegram_user_id", PStr (Py.str_of_int tg_id))]).

(** The [payload] dict of [im_create_payment_request]. *)
Definition payload (tg_id : Z) : list (string * string) :=
  [("purpose", "Premium Membership");
   ("amount", Py.str_of_int (PRICE_INR pc));
   ("redirect_url", (BASE_URL pc ++ "/payment-return")%string);
   ("webhook", (BASE_URL pc ++ "/instamojo-webhook")%string);
   ("allow_repeated_payments", "false");
   ("metadata", metadata_text tg_id)].

(** ["&".join([f"{k}={quote(v)}" for k, v in payload.items()])] *)
Definition form_body (fields : list (string * string)) : string :=
  String.concat "&" (map (fun kv => (fst kv ++ "=" ++ quote (snd kv))%string) fields).

Definition create_post (tg_id : Z) : Post :=
  {| post_url := (IM_API_BASE ++ "/payment-requests/")%string;
     post_data := form_body (payload tg_id);
     post_headers := im_headers |}.

(** [im_create_payment_request(tg_id)]: the pair [(longurl, id)], or [None]
    when a step raises. *)
Definition im_create_payment_request (tg_id : Z) : option (pyval * pyval) :=
  match post (create_post tg_id) with
  | None => None
  | Some answer =>
      match item answer "payment_request" with
      | None => None
      | Some pr =>
          match item pr "longurl", item pr "id" with
          | Some longurl, Some id => Some (longurl, id)
          | _, _ => None
          end
      end
  end.

(** [pay()], with the "tg" argument of the query if there is one: the
    answer and the POSTs made. *)
Definition pay (tg_arg : option string) : PayReply * list Post :=
  let tg := strip (match tg_arg with Some t => t | None => "" end) in
  if negb (Py.isdigit tg) then (PayInvalid, [])
  else
    match Py.int_of_str tg with
    | None => (PayFailed, [])
    | Some tg_id =>
        match im_create_payment_request tg_id with
        | Some (url, _) => (PayRedirect url, [create_post tg_id])
        | None => (PayFailed, [create_post tg_id])
        end
    end.

End Gateway.

End Pay.

(** ** More notions used to state the properties *)

(** The calls a sweep makes before its save, item after item: a ban alone
    when it raised, a ban and an unban when the unban raised, or the two
    followed by the message. *)
Inductive kick_shaped : list Event -> Prop :=
| kicks_none : kick_shaped []
| kicks_ban id rest :
    kick_shaped rest -> kick_shaped (EvBan id :: rest)
| kicks_ban_unban id rest :
    kick_shaped rest -> kick_shaped (EvBan id :: EvUnban id :: rest)
| kicks_whole id uid rest :
    Py.int_of_str uid = Some id ->
    kick_shaped rest ->
    kick_shaped (EvBan id :: EvUnban id :: EvDM id (MsgRejoin uid) :: rest).

(** A record with the three fields a payment writes, each of its type, and a
    status that is [active] or [expired]. *)
Definition record_typed (v : pyval) : Prop :=
  exists r e lp st,
    v = PDict r /\
    Py.dict_get r "expiry_ts" = Some (PInt e) /\
    Py.dict_get r "last_payment" = Some (PStr lp) /\
    Py.dict_get r "status" = Some (PStr st) /\
    (st = "active" \/ st = "expired").

(** A store whose keys are distinct, each the decimal text of a number that
    is not negative, and whose records are typed. *)
Definition store_typed (d : dict) : Prop :=
  Py.dict_wf d = true /\
  forall k v, In (k, v) d ->
    (exists n, 0 <= n /\ k = Py.str_of_int n) /\ record_typed v.

(** The value of the decimal digits of [d] read after the value [acc]. *)
Fixpoint digits_value (d : Decimal.uint) (acc : Z) : Z :=
  match d with
  | Decimal.Nil => acc
  | Decimal.D0 l => digits_value l (10 * acc)
  | Decimal.D1 l => digits_value l (10 * acc + 1)
  | Decimal.D2 l => digits_value l (10 * acc + 2)
  | Decimal.D3 l => digits_value l (10 * acc + 3)
  | Decimal.D4 l => digits_value l (10 * acc + 4)
  | Decimal.D5 l => digits_value l (10 * acc + 5)
  | Decimal.D6 l => digits_value l (10 * acc + 6)
  | Decimal.D7 l => digits_value l (10 * acc + 7)
  | Decimal.D8 l => digits_value l (10 * acc + 8)
  | Decimal.D9 l => digits_value l (10 * acc + 9)
  end.

(** ** More sample inputs *)

(** A serialisation that knows the stores of the samples below. *)
Definition sample_json_dumps (v : pyval) : string :=
  match v with
  | PDict [] => "{}"
  | PInt 42 => "42"
  | _ => "null"
  end.

Definition sample_files : DataFile.Files :=
  {| DataFile.data_file := Some "42"; DataFile.tmp_file := None |}.

Definition sample_pay_config : Pay.PayConfig :=
  {| Pay.PRICE_INR := 2500;
     Pay.BASE_URL := "https://bot.example";
     Pay.IM_BEARER := "";
     Pay.IM_KEY := "key";
     Pay.IM_TOKEN := "token" |}.

(** A gateway that accepts every request. *)
Definition sample_post (p : Pay.Post) : option pyval :=
  Some (PDict [("payment_request",
                PDict [("longurl", PStr "https://pay.example/r/1");
                       ("id", PStr "req_1")])]).

(** The identity, as text, is all the sample serialisation keeps of a
    metadata mapping; the sample decoder reads it back. *)
Definition identity_json_dumps (v : pyval) : string :=
  match v with
  | PDict [(_, PStr t)] => t
  | _ => "null"
  end.

Definition identity_json_loads (t : string) : option pyval :=
  Some (PDict [("telegram_user_id", PStr t)]).

(** The first save fails and later ones succeed; the first lookup answers
    with a payment of subscriber 42, later ones with a payment of 7. *)
Definition world_where_disk_recovers : World :=
  {| clock := sample_instant;
     gateway := fun t _ =>
       if (t =? 0)%nat then Some paid_request
       else Some (PDict [("status", PStr "Credit");
                         ("metadata", PDict [("telegram_user_id", PStr "7")])]);
     invite_link := fun _ _ => Some "https://t.me/+AbCdEf";
     ban_ok := fun _ _ => true;
     unban_ok := fun _ _ => true;
     disk_ok := fun t => (5 <? t)%nat |}.

(** * Properties *)

(** ** Python operations on sample values *)

Example int_of_str_samples :
  Py.int_of_str "42" = Some 42 /\ Py.int_of_str " -7 " = Some (-7) /\
  Py.int_of_str "1_000" = Some 1000 /\ Py.int_of_str "007" = Some 7 /\
  Py.int_of_str "4 2" = None /\ Py.int_of_str "" = None /\
  Py.int_of_str "abc" = None /\ Py.int_of_str "1__0" = None /\
  Py.int_of_str "- 5" = None /\ Py.int_of_str "12_" = None.
Proof. repeat split; reflexivity. Qed.

Example str_isdigit_samples :
  Py.str_of_int 42 = "42" /\ Py.str_of_int 0 = "0" /\
  Py.isdigit "42" = true /\ Py.isdigit "" = false /\
  Py.isdigit "4a" = false /\ Py.isdigit "-4" = false.
Proof. repeat split; reflexivity. Qed.

Example is_due_samples :
  is_due 1000 (subscription 999 "active") = Some true /\
  is_due 1000 (subscription 1000 "active") = Some true /\
  is_due 1000 (subscription 1001 "active") = Some false /\
  is_due 1000 (subscription 999 "expired") = Some false /\
  is_due 1000 (PDict [("status", PStr "active")]) = Some true /\
  is_due 1000 (PDict [("status", PStr "active"); ("expiry_ts", PNone)]) = None /\
  is_due 1000 (PDict [("status", PStr "active"); ("expiry_ts", PStr "soon")])
    = None /\
  is_due 1000 (PDict [("status", PStr "active"); ("expiry_ts", PStr "999")])
    = Some true /\
  is_due 1000 (PList []) = None /\ is_due 1000 (PDict []) = Some false.
Proof. repeat split; reflexivity. Qed.

(** ** Dictionaries *)

Section DictFacts.

Context {V : Type}.
Implicit Types (d : list (string * V)) (k : string) (v : V).

Lemma dict_get_set_same d k v : Py.dict_get (Py.dict_set d k v) k = Some v.
Proof.
  induction d as [|[k' v'] d IH]; simpl.
  - now rewrite String.eqb_refl.
  - destruct (String.eqb k' k) eqn:E; simpl; rewrite E; auto.
Qed.

Lemma dict_get_set_other d k k' v :
  k' <> k -> Py.dict_get (Py.dict_set d k v) k' = Py.dict_get d k'.
Proof.
  intros Hne. induction d as [|[k0 v0] d IH]; simpl.
  - destruct (String.eqb_spec k k'); congruence.
  - destruct (String.eqb_spec k0 k); simpl.
    + subst k0. destruct (String.eqb_spec k k'); congruence.
    + now rewrite IH.
Qed.

Lemma dict_set_set d k v1 v2 :
  Py.dict_set (Py.dict_set d k v1) k v2 = Py.dict_set d k v2.
Proof.
  induction d as [|[k0 v0] d IH]; simpl.
  - now rewrite String.eqb_refl.
  - destruct (String.eqb k0 k) eqn:E; simpl; rewrite E; congruence.
Qed.

Lemma keys_set_present d k v x :
  Py.dict_get d k = Some x -> Py.keys (Py.dict_set d k v) = Py.keys d.
Proof.
  unfold Py.keys. induction d as [|[k0 v0] d IH]; simpl; [discriminate|].
  destruct (String.eqb k0 k); simpl; intros H; [reflexivity|].
  now rewrite IH.
Qed.

Lemma dict_set_same_value d k v :
  Py.dict_get d k = Some v -> Py.dict_set d k v = d.
Proof.
  induction d as [|[k0 v0] d IH]; simpl; [discriminate|].
  destruct (String.eqb k0 k); intros H.
  - congruence.
  - now rewrite IH.
Qed.

Lemma mem_In k l : Py.mem k l = true <-> In k l.
Proof.
  induction l as [|k' l IH]; simpl.
  - split; [discriminate | tauto].
  - rewrite orb_true_iff, IH. destruct (String.eqb_spec k' k); intuition congruence.
Qed.

Lemma dict_get_In d k v : Py.dict_get d k = Some v -> In (k, v) d.
Proof.
  induction d as [|[k0 v0] d IH]; simpl; [discriminate|].
  destruct (String.eqb_spec k0 k); intros H.
  - left. congruence.
  - right. auto.
Qed.

Lemma dict_get_not_mem d k : Py.mem k (Py.keys d) = false -> Py.dict_get d k = None.
Proof.
  unfold Py.keys. induction d as [|[k0 v0] d IH]; simpl; [reflexivity|].
  destruct (String.eqb k0 k); simpl; [discriminate | auto].
Qed.

Lemma In_dict_get d k v :
  Py.dict_wf d = true -> In (k, v) d -> Py.dict_get d k = Some v.
Proof.
  unfold Py.dict_wf, Py.keys. induction d as [|[k0 v0] d IH]; simpl; [tauto|].
  rewrite andb_true_iff, negb_true_iff. intros [Hm Hd] [H|H].
  - inversion H; subst. now rewrite String.eqb_refl.
  - destruct (String.eqb_spec k0 k).
    + subst k0. apply IH in H; auto.
      apply dict_get_not_mem in Hm. congruence.
    + auto.
Qed.

Lemma In_set_inv d k v k' v' :
  In (k', v') (Py.dict_set d k v) -> In (k', v') d \/ (k' = k /\ v' = v).
Proof.
  induction d as [|[k0 v0] d IH]; simpl.
  - intros [H|[]]. inversion H; auto.
  - destruct (String.eqb_spec k0 k); simpl.
    + intros [H|H]; [inversion H; subst; auto | auto].
    + intros [H|H]; [auto | apply IH in H; tauto].
Qed.

Lemma mem_keys_set d k k' v :
  Py.mem k' (Py.keys (Py.dict_set d k v)) = Py.mem k' (Py.keys d) || String.eqb k k'.
Proof.
  unfold Py.keys. induction d as [|[k0 v0] d IH]; simpl.
  - now rewrite orb_false_r.
  - destruct (String.eqb_spec k0 k); simpl.
    + subst k0. destruct (String.eqb k k'); simpl; auto using orb_true_r.
      now rewrite orb_false_r.
    + rewrite IH. now rewrite orb_assoc.
Qed.

Lemma dict_wf_set d k v : Py.dict_wf d = true -> Py.dict_wf (Py.dict_set d k v) = true.
Proof.
  unfold Py.dict_wf. induction d as [|[k0 v0] d IH]; simpl; [reflexivity|].
  rewrite andb_true_iff, negb_true_iff. intros [Hm Hd].
  destruct (String.eqb_spec k0 k); simpl.
  - now rewrite Hm, Hd.
  - fold (Py.keys (Py.dict_set d k v)). rewrite mem_keys_set, Hm, IH by assumption.
    simpl. destruct (String.eqb_spec k k0); [congruence | reflexivity].
Qed.



End DictFacts.

(** ** One iteration of the sweep *)

Lemma sweep_body_eq w now_ts uid rec s :
  sweep_body w now_ts uid rec s =
  match is_due now_ts rec with
  | None => (Exn, s)
  | Some false => (Ok false, s)
  | Some true =>
      match Py.int_of_str uid with
      | None => (Exn, s)
      | Some id =>
          if ban_ok w (tick s) id then
            if unban_ok w (S (tick s)) id then
              match Py.dict_get (DB s) uid with
              | Some (PDict r) => (Ok true, expired_state w uid id r s)
              | _ => (Exn, emit (EvUnban id) (emit (EvBan id) s))
              end
            else (Exn, emit (EvUnban id) (emit (EvBan id) s))
          else (Exn, emit (EvBan id) s)
      end
  end.
Proof.
  unfold sweep_body, bind, lift, ret, raise.
  destruct (is_due now_ts rec) as [[|]|]; try reflexivity.
  destruct (Py.int_of_str uid) as [id|]; try reflexivity.
  unfold ban_chat_member, unban_chat_member. simpl.
  destruct (ban_ok w (tick s) id); try reflexivity.
  destruct (unban_ok w (S (tick s)) id); try reflexivity.
  unfold db_rec_set at 1. simpl.
  destruct (Py.dict_get (DB s) uid) as [[| | | | | |r]|]; try reflexivity.
  unfold now, db_rec_set, send_dm_blocking, expired_state, mark_expired, emit. simpl.
  rewrite dict_get_set_same. simpl.
  rewrite dict_set_set, <- !app_assoc. reflexivity.
Qed.

Lemma new_events_app s s' evs :
  trace s' = trace s ++ evs -> new_events s s' = evs.
Proof.
  unfold new_events. intros ->.
  rewrite skipn_app, skipn_all, Nat.sub_diag. reflexivity.
Qed.

Lemma saves_app evs1 evs2 : saves (evs1 ++ evs2) = (saves evs1 + saves evs2)%nat.
Proof. unfold saves. now rewrite filter_app, length_app. Qed.

Lemma is_due_dict now_ts rec :
  is_due now_ts rec = Some true ->
  exists r, rec = PDict r /\ Py.dict_get r "status" = Some (PStr "active").
Proof.
  destruct rec as [| | | | | |r]; try discriminate.
  unfold is_due, Py.get. intros H. exists r. split; [reflexivity|].
  destruct (Py.dict_get r "status") as [st|]; [|discriminate].
  destruct st as [| | | |t| |]; try discriminate.
  simpl in H. destruct (String.eqb_spec t "active"); [congruence | discriminate].
Qed.

Lemma mark_expired_status r t :
  exists r', mark_expired r t = PDict r' /\
             Py.dict_get r' "status" = Some (PStr "expired") /\
             Py.dict_get r' "expired_at" = Some (PStr t).
Proof.
  unfold mark_expired. eexists. split; [reflexivity|]. split.
  - rewrite dict_get_set_other by discriminate. apply dict_get_set_same.
  - apply dict_get_set_same.
Qed.

Lemma mark_expired_neq now_ts r t :
  is_due now_ts (PDict r) = Some true -> mark_expired r t <> PDict r.
Proof.
  intros Hd Heq. apply is_due_dict in Hd as (r0 & E & Hst). inversion E; subst r0.
  destruct (mark_expired_status r t) as (r' & E' & Hst' & _).
  rewrite Heq in E'. inversion E'; subst r'. congruence.
Qed.

#[local] Ltac item_events Hev :=
  split; [simpl; rewrite <- ?app_assoc; reflexivity | split;
    [reflexivity | repeat (constructor; [apply Hev; auto|]); constructor]].

(** What one iteration leaves alone. *)
Lemma sweep_body_frame w now_ts uid rec s res1 s1 :
  sweep_body w now_ts uid rec s = (res1, s1) ->
  Py.keys (DB s1) = Py.keys (DB s) /\ disk s1 = disk s /\
  (forall k, k <> uid -> Py.dict_get (DB s1) k = Py.dict_get (DB s) k) /\
  (res1 <> Ok true -> DB s1 = DB s) /\
  exists evs, trace s1 = trace s ++ evs /\ saves evs = 0%nat /\
              Forall (item_event now_ts uid rec) evs.
Proof.
  rewrite sweep_body_eq.
  destruct (is_due now_ts rec) as [[|]|] eqn:Hdue.
  2,3: intros H; inversion H; subst; repeat split; auto;
       exists []; rewrite app_nil_r; auto.
  destruct (Py.int_of_str uid) as [id|] eqn:Hid.
  2: intros H; inversion H; subst; repeat split; auto;
     exists []; rewrite app_nil_r; auto.
  assert (Hev : forall e, e = EvBan id \/ e = EvUnban id \/ e = EvDM id (MsgRejoin uid) ->
                          item_event now_ts uid rec e).
  { intros e He. split; [assumption|]. exists id. auto. }
  destruct (ban_ok w (tick s) id).
  2: { intros H; inversion H; subst; simpl; repeat split; auto.
       exists [EvBan id]. item_events Hev. }
  assert (Hfail : (@Exn bool, emit (EvUnban id) (emit (EvBan id) s)) = (res1, s1) ->
     Py.keys (DB s1) = Py.keys (DB s) /\ disk s1 = disk s /\
     (forall k, k <> uid -> Py.dict_get (DB s1) k = Py.dict_get (DB s) k) /\
     (res1 <> Ok true -> DB s1 = DB s) /\
     exists evs, trace s1 = trace s ++ evs /\ saves evs = 0%nat /\
                 Forall (item_event now_ts uid rec) evs).
  { intros H; inversion H; subst; simpl; repeat split; auto.
    exists [EvBan id; EvUnban id]. item_events Hev. }
  destruct (unban_ok w (S (tick s)) id); [|exact Hfail].
  destruct (Py.dict_get (DB s) uid) as [[| | | | | |r]|] eqn:Hget; try exact Hfail.
  intros H; inversion H; subst; simpl. repeat split.
  - eapply keys_set_present; eauto.
  - intros k Hk. now apply dict_get_set_other.
  - congruence.
  - eexists. item_events Hev.
Qed.

Lemma sweep_event_cons now_ts uid rec rest e :
  sweep_event now_ts rest e -> sweep_event now_ts ((uid, rec) :: rest) e.
Proof. intros (u & r & Hin & He). exists u, r. split; [now right | assumption]. Qed.

Lemma sweep_event_head now_ts uid rec rest e :
  item_event now_ts uid rec e -> sweep_event now_ts ((uid, rec) :: rest) e.
Proof. intros He. exists uid, rec. split; [now left | assumption]. Qed.

(** ** The loop of the sweep *)

(** What the loop leaves alone: the keys, the data file, every key outside
    the snapshot; it never saves, and all it calls is on behalf of its
    items.  Until a record is expired the flag and the store stay as they
    were. *)
Lemma sweep_loop_frame w now_ts items :
  forall c0 s c s',
    sweep_loop w now_ts items c0 s = (c, s') ->
    Py.keys (DB s') = Py.keys (DB s) /\ disk s' = disk s /\
    (forall k, Py.mem k (Py.keys items) = false ->
               Py.dict_get (DB s') k = Py.dict_get (DB s) k) /\
    ((c = c0 /\ DB s' = DB s) \/ c = true) /\
    exists evs, trace s' = trace s ++ evs /\ saves evs = 0%nat /\
                Forall (sweep_event now_ts items) evs.
Proof.
  induction items as [|[uid rec] rest IH]; intros c0 s c s'; simpl.
  - intros H; inversion H; subst. repeat split; auto.
    exists []. rewrite app_nil_r. auto.
  - destruct (sweep_body w now_ts uid rec s) as [res1 s1] eqn:Hbody.
    destruct (sweep_body_frame _ _ _ _ _ _ _ Hbody)
      as (Hk1 & Hd1 & Ho1 & Hsame1 & evs1 & Ht1 & Hs1 & He1).
    intros Hloop.
    set (c1 := match res1 with Ok b => b || c0 | Exn => c0 end).
    assert (Hloop1 : sweep_loop w now_ts rest c1 s1 = (c, s'))
      by (subst c1; destruct res1; exact Hloop).
    destruct (IH _ _ _ _ Hloop1) as (Hk2 & Hd2 & Ho2 & Hflag2 & evs2 & Ht2 & Hs2 & He2).
    repeat split.
    + congruence.
    + congruence.
    + intros k Hk. rewrite orb_false_iff in Hk. destruct Hk as [Hne Hk].
      rewrite Ho2 by assumption. apply Ho1.
      intros ->. rewrite String.eqb_refl in Hne. discriminate.
    + destruct Hflag2 as [[Hc Hdb]|Hc]; [|now right].
      subst c1. destruct res1 as [[|]|]; simpl in Hc.
      * now right.
      * left. split; [assumption|]. rewrite Hdb. apply Hsame1. discriminate.
      * left. split; [assumption|]. rewrite Hdb. apply Hsame1. discriminate.
    + exists (evs1 ++ evs2). rewrite Ht2, Ht1, app_assoc, saves_app, Hs1, Hs2.
      repeat split. apply Forall_app. split.
      * eapply Forall_impl; [|exact He1]. intros e. apply sweep_event_head.
      * eapply Forall_impl; [|exact He2]. intros e. apply sweep_event_cons.
Qed.

(** What one iteration does to its own item, which [DB] still holds under
    its key. *)
Lemma sweep_body_item w now_ts uid rec s res1 s1 :
  Py.dict_get (DB s) uid = Some rec ->
  sweep_body w now_ts uid rec s = (res1, s1) ->
  (res1 <> Ok true /\ kept w now_ts uid rec (DB s1) (new_events s s1)) \/
  (res1 = Ok true /\ expired_by w now_ts uid rec (DB s1) (new_events s s1)).
Proof.
  intros Hget. rewrite sweep_body_eq.
  destruct (is_due now_ts rec) as [[|]|] eqn:Hdue.
  2,3: intros H; inversion H; subst; left; split; [discriminate|];
       split; [assumption | intro; congruence].
  destruct (Py.int_of_str uid) as [id|] eqn:Hid.
  2: intros H; inversion H; subst; left; split; [discriminate|];
     split; [assumption | intros _ id; congruence].
  destruct (ban_ok w (tick s) id) eqn:Hban.
  2: { intros H; inversion H; subst; left. split; [discriminate|].
       split; [assumption|]. intros _ id' Hid'. assert (id' = id) by congruence. subst id'.
       rewrite (new_events_app s _ [EvBan id]) by reflexivity.
       split; [now left|]. exists (tick s). now left. }
  destruct (is_due_dict _ _ Hdue) as (r & -> & Hst).
  rewrite Hget.
  destruct (unban_ok w (S (tick s)) id) eqn:Hunban.
  2: { intros H; inversion H; subst; left. split; [discriminate|].
       split; [assumption|]. intros _ id' Hid'. assert (id' = id) by congruence. subst id'.
       rewrite (new_events_app s _ [EvBan id; EvUnban id])
         by (simpl; now rewrite <- app_assoc).
       split; [now left|]. exists (tick s). now right. }
  intros H; inversion H; subst. right. split; [reflexivity|].
  exists r, id, (tick s).
  rewrite (new_events_app s _ [EvBan id; EvUnban id; EvDM id (MsgRejoin uid)])
    by reflexivity.
  simpl. rewrite dict_get_set_same. repeat split; auto.
Qed.

Lemma kept_incl w now_ts uid rec db evs evs' :
  incl evs evs' -> kept w now_ts uid rec db evs -> kept w now_ts uid rec db evs'.
Proof.
  intros Hincl [Hget H]. split; [assumption|]. intros Hd id Hid.
  destruct (H Hd id Hid) as [Hin Ht]. split; [auto | assumption].
Qed.

Lemma expired_by_incl w now_ts uid rec db evs evs' :
  incl evs evs' ->
  expired_by w now_ts uid rec db evs -> expired_by w now_ts uid rec db evs'.
Proof.
  intros Hincl (r & id & t & H1 & H2 & H3 & H4 & H5 & H6 & H7 & H8 & H9).
  exists r, id, t. repeat split; auto.
Qed.

(** What the loop does to each item of a snapshot that [DB] still holds:
    the item is kept as it was or expired; and the flag is raised only by an
    item that was expired. *)
Lemma sweep_loop_records w now_ts items :
  forall c0 s c s',
    Py.dict_wf items = true ->
    (forall uid rec, In (uid, rec) items -> Py.dict_get (DB s) uid = Some rec) ->
    sweep_loop w now_ts items c0 s = (c, s') ->
    (forall uid rec, In (uid, rec) items ->
       kept w now_ts uid rec (DB s') (new_events s s') \/
       expired_by w now_ts uid rec (DB s') (new_events s s')) /\
    (c = true -> c0 = true \/
       exists uid rec, In (uid, rec) items /\
         expired_by w now_ts uid rec (DB s') (new_events s s')).
Proof.
  unfold Py.dict_wf.
  induction items as [|[uid rec] rest IH]; intros c0 s c s'; simpl.
  - intros _ _ H; inversion H; subst. split; [tauto | auto].
  - rewrite andb_true_iff, negb_true_iff. intros [Hfresh Hwf] Halias.
    destruct (sweep_body w now_ts uid rec s) as [res1 s1] eqn:Hbody.
    destruct (sweep_body_frame _ _ _ _ _ _ _ Hbody)
      as (_ & _ & Ho1 & _ & evs1 & Ht1 & _ & _).
    pose proof (sweep_body_item _ _ _ _ _ _ _ (Halias _ _ (or_introl eq_refl)) Hbody)
      as Hitem.
    intros Hloop.
    set (c1 := match res1 with Ok b => b || c0 | Exn => c0 end).
    assert (Hloop1 : sweep_loop w now_ts rest c1 s1 = (c, s'))
      by (subst c1; destruct res1; exact Hloop).
    destruct (sweep_loop_frame _ _ _ _ _ _ _ Hloop1)
      as (_ & _ & Ho2 & _ & evs2 & Ht2 & _ & _).
    assert (Halias1 : forall u r, In (u, r) rest -> Py.dict_get (DB s1) u = Some r).
    { intros u r Hin. rewrite Ho1; [apply Halias; now right|].
      intros ->. apply (in_map fst) in Hin. apply mem_In in Hin.
      unfold Py.keys in Hfresh. simpl in Hin. congruence. }
    destruct (IH _ _ _ _ Hwf Halias1 Hloop1) as [Hrecs Hflag].
    rewrite (new_events_app s s1 evs1) in Hitem by assumption.
    rewrite (new_events_app s1 s' evs2) in Hrecs, Hflag by assumption.
    rewrite (new_events_app s s' (evs1 ++ evs2))
      by (rewrite Ht2, Ht1; now rewrite app_assoc).
    assert (Hhead :
      (res1 <> Ok true /\ kept w now_ts uid rec (DB s') (evs1 ++ evs2)) \/
      (res1 = Ok true /\ expired_by w now_ts uid rec (DB s') (evs1 ++ evs2))).
    { destruct Hitem as [[Hres [Hget Hk]]|[Hres Hex]].
      - left. split; [assumption|]. split.
        + rewrite Ho2 by assumption. assumption.
        + intros Hd id Hid. destruct (Hk Hd id Hid) as [Hin Ht].
          split; [apply in_or_app; now left | assumption].
      - right. split; [assumption|].
        destruct Hex as (r & id & t & H1 & H2 & H3 & H4 & H5 & H6 & H7 & H8 & H9).
        exists r, id, t. rewrite Ho2 by assumption.
        repeat split; auto; apply in_or_app; now left. }
    split.
    + intros u r [Hin|Hin].
      * inversion Hin; subst u r. destruct Hhead as [[_ H]|[_ H]]; auto.
      * destruct (Hrecs _ _ Hin) as [H|H];
          [left; eapply kept_incl; [apply incl_appr, incl_refl | exact H]
          | right; eapply expired_by_incl; [apply incl_appr, incl_refl | exact H]].
    + intros Hc. destruct (Hflag Hc) as [Hc1|(u & r & Hin & Hex)].
      * subst c1. destruct Hhead as [[Hres _]|[_ Hex]].
        -- left. destruct res1 as [[|]|]; simpl in Hc1; congruence.
        -- right. exists uid, rec. split; [now left | assumption].
      * right. exists u, r. split; [now right|].
        eapply expired_by_incl; [apply incl_appr, incl_refl | exact Hex].
Qed.

(** ** The sweep as a whole *)

Lemma expiry_job_eq w s :
  expiry_job w s =
  let '(changed, s1) := sweep_loop w (sweep_now w s) (DB s) false (bump s) in
  if changed then save_db w s1 else (Ok tt, s1).
Proof.
  unfold expiry_job, bind, now, sweep_now. simpl.
  destruct (DB s); reflexivity.
Qed.

Lemma In_keys_get (d : dict) uid rec :
  Py.dict_wf d = true -> In (uid, rec) d <-> Py.dict_get d uid = Some rec.
Proof. intros Hwf. split; [now apply In_dict_get | apply dict_get_In]. Qed.

(** The sweep in one statement.  [s1] is the state when the loop ends and
    [changed] its flag; the sweep then saves once or not at all. *)
Lemma expiry_job_spec w s :
  Py.dict_wf (DB s) = true ->
  exists (changed : bool) s1 evs,
    expiry_job w s = (if changed then save_db w s1 else (Ok tt, s1)) /\
    trace s1 = trace s ++ evs /\ saves evs = 0%nat /\
    Forall (sweep_event (sweep_now w s) (DB s)) evs /\
    Py.keys (DB s1) = Py.keys (DB s) /\ disk s1 = disk s /\
    (forall uid rec, Py.dict_get (DB s) uid = Some rec ->
       kept w (sweep_now w s) uid rec (DB s1) evs \/
       expired_by w (sweep_now w s) uid rec (DB s1) evs) /\
    (changed = false -> DB s1 = DB s) /\
    (changed = true ->
       exists uid rec, Py.dict_get (DB s) uid = Some rec /\
         expired_by w (sweep_now w s) uid rec (DB s1) evs).
Proof.
  intros Hwf. rewrite expiry_job_eq.
  destruct (sweep_loop w (sweep_now w s) (DB s) false (bump s)) as [c s1] eqn:Hloop.
  destruct (sweep_loop_frame _ _ _ _ _ _ _ Hloop)
    as (Hk & Hd & _ & Hflag & evs & Ht & Hs & He).
  destruct (sweep_loop_records w _ (DB s) false (bump s) c s1 Hwf
              (fun u r H => In_dict_get (DB s) u r Hwf H) Hloop) as [Hrecs Hch].
  rewrite (new_events_app (bump s) s1 evs) in Hrecs, Hch by exact Ht.
  exists c, s1, evs. repeat split; auto.
  - intros uid rec Hget. apply Hrecs. now apply dict_get_In.
  - intros ->. destruct Hflag as [[_ H]|H]; [exact H | discriminate].
  - intros Hc. destruct (Hch Hc) as [H|(u & r & Hin & Hex)]; [discriminate|].
    exists u, r. split; [now apply In_dict_get | assumption].
Qed.

(** The state and the calls of the whole sweep, from those of its loop. *)
Lemma save_db_eq w s1 :
  save_db w s1 =
  (if disk_ok w (tick s1) then Ok tt else Exn,
   {| DB := DB s1;
      disk := if disk_ok w (tick s1) then Some (DB s1) else disk s1;
      trace := trace s1 ++ [EvSave (DB s1)];
      tick := S (tick s1) |}).
Proof. unfold save_db, emit. destruct (disk_ok w (tick s1)); reflexivity. Qed.

(** What the sweep does, in terms of the state it ends in. *)
Lemma expiry_job_records w s :
  Py.dict_wf (DB s) = true ->
  let s' := snd (expiry_job w s) in
  let evs := new_events s s' in
  Py.keys (DB s') = Py.keys (DB s) /\
  (forall uid rec, Py.dict_get (DB s) uid = Some rec ->
     kept w (sweep_now w s) uid rec (DB s') evs \/
     expired_by w (sweep_now w s) uid rec (DB s') evs) /\
  Forall (fun e => sweep_event (sweep_now w s) (DB s) e \/ e = EvSave (DB s')) evs /\
  ((DB s' = DB s /\ disk s' = disk s /\ saves evs = 0%nat) \/
   ((exists uid rec, Py.dict_get (DB s) uid = Some rec /\
       expired_by w (sweep_now w s) uid rec (DB s') evs) /\
    saves evs = 1%nat /\
    exists t, disk s' = if disk_ok w t then Some (DB s') else disk s)).
Proof.
  intros Hwf.
  destruct (expiry_job_spec w s Hwf)
    as (c & s1 & evs1 & Hrun & Ht & Hs & He & Hk & Hd & Hrecs & Hfalse & Htrue).
  cbv zeta. rewrite Hrun. destruct c.
  - rewrite save_db_eq. cbn [snd DB disk trace].
    rewrite (new_events_app s _ (evs1 ++ [EvSave (DB s1)]))
      by (cbn [trace]; rewrite Ht; now rewrite app_assoc).
    assert (Hincl : incl evs1 (evs1 ++ [EvSave (DB s1)])) by apply incl_appl, incl_refl.
    split; [assumption|]. split; [|split].
    + intros uid rec Hget. destruct (Hrecs uid rec Hget) as [H|H];
        [left; eapply kept_incl | right; eapply expired_by_incl]; eauto.
    + apply Forall_app. split.
      * eapply Forall_impl; [|exact He]. intros e H. now left.
      * constructor; [now right | constructor].
    + right. destruct (Htrue eq_refl) as (u & r & Hget & Hex). split; [|split].
      * exists u, r. split; [assumption|]. eapply expired_by_incl; eauto.
      * rewrite saves_app, Hs. reflexivity.
      * exists (tick s1). now rewrite Hd.
  - cbn [snd]. rewrite (new_events_app s s1 evs1) by exact Ht.
    split; [assumption|]. split; [assumption|]. split.
    + eapply Forall_impl; [|exact He]. intros e H. now left.
    + left. auto.
Qed.

(** ** The webhook *)

Lemma im_get_payment_request_eq w req_id s :
  im_get_payment_request w req_id s =
  (match gateway w (tick s) req_id with Some pr => Ok pr | None => Exn end,
   emit (EvLookup req_id) s).
Proof. unfold im_get_payment_request. destruct (gateway w (tick s) req_id); reflexivity. Qed.

Lemma activate_eq cfg w tg_id s1 :
  activate cfg w tg_id s1 =
  match invite_link w (S (tick s1)) (invite_expiry cfg w s1) with
  | None => (Exn, emit (EvInvite (invite_expiry cfg w s1)) (bump s1))
  | Some link =>
      if disk_ok w (S (S (S (S (tick s1))))) then
        (Ok tt, {| DB := paid_db cfg w tg_id s1;
                   disk := Some (paid_db cfg w tg_id s1);
                   trace := trace s1 ++ [EvInvite (invite_expiry cfg w s1);
                                         EvSave (paid_db cfg w tg_id s1);
                                         EvDM tg_id (MsgInvite link)];
                   tick := S (S (S (S (S (S (tick s1)))))) |})
      else
        (Exn, {| DB := paid_db cfg w tg_id s1;
                 disk := disk s1;
                 trace := trace s1 ++ [EvInvite (invite_expiry cfg w s1);
                                       EvSave (paid_db cfg w tg_id s1)];
                 tick := S (S (S (S (S (tick s1))))) |})
  end.
Proof.
  unfold activate, create_single_use_invite, bind, now, invite_expiry. simpl.
  destruct (invite_link w (S (tick s1)) _) as [link|]; [|reflexivity].
  unfold save_db, db_set, send_dm_blocking, emit, paid_db. simpl.
  destruct (disk_ok w (S (S (S (S (tick s1)))))); simpl;
    rewrite <- ?app_assoc; reflexivity.
Qed.

Lemma create_single_use_invite_fst cfg w s1 :
  fst (create_single_use_invite w (INVITE_LINK_TTL_SECONDS cfg) s1) =
  match invite_link w (S (tick s1)) (invite_expiry cfg w s1) with
  | Some link => Ok link
  | None => Exn
  end.
Proof.
  unfold create_single_use_invite, bind, now, invite_expiry. simpl.
  destruct (invite_link w (S (tick s1)) _); reflexivity.
Qed.

(** The webhook, once the request id is there and the gateway has answered
    with a payment that verifies. *)
Lemma webhook_verified cfg json_loads w form s pr tg_id :
  request_id form <> "" ->
  gateway w (tick s) (request_id form) = Some pr ->
  check_payment json_loads pr = Verified tg_id ->
  instamojo_webhook cfg json_loads w form s =
  (Resp "ok" 200,
   snd (activate cfg w tg_id (emit (EvLookup (request_id form)) s))).
Proof.
  intros Hid Hgw Hck. unfold instamojo_webhook.
  destruct (String.eqb_spec (request_id form) ""); [contradiction|].
  rewrite im_get_payment_request_eq, Hgw, Hck. reflexivity.
Qed.

(** ** Activation *)

(** C1. When the payment verifies and issuing the invite link raises, the
    webhook leaves the store as it was: [DB] and the data file are unchanged,
    and the only calls made are the gateway lookup and the attempt to create
    the link, so nothing is saved and nothing is sent. *)
Theorem no_credential_no_record cfg json_loads w form s pr tg_id :
  request_id form <> "" ->
  gateway w (tick s) (request_id form) = Some pr ->
  check_payment json_loads pr = Verified tg_id ->
  let s1 := emit (EvLookup (request_id form)) s in
  fst (create_single_use_invite w (INVITE_LINK_TTL_SECONDS cfg) s1) = Exn ->
  let s' := snd (instamojo_webhook cfg json_loads w form s) in
  DB s' = DB s /\ disk s' = disk s /\
  new_events s s' = [EvLookup (request_id form); EvInvite (invite_expiry cfg w s1)] /\
  saves (new_events s s') = 0%nat.
Proof.
  intros Hid Hgw Hck s1 Hinv s'.
  assert (Hs' : s' = emit (EvInvite (invite_expiry cfg w s1)) (bump s1)).
  { subst s'. rewrite (webhook_verified cfg json_loads _ _ _ _ _ Hid Hgw Hck). fold s1.
    rewrite activate_eq. revert Hinv. rewrite create_single_use_invite_fst.
    destruct (invite_link w _ _); [discriminate | reflexivity]. }
  assert (Hev : new_events s s' =
                [EvLookup (request_id form); EvInvite (invite_expiry cfg w s1)]).
  { apply new_events_app. rewrite Hs'. simpl. now rewrite <- app_assoc. }
  rewrite Hev, Hs'. repeat split.
Qed.

Lemma no_credential_no_record_witness :
  let s' := snd (instamojo_webhook cfg0 sample_json_loads world_without_invites
                   form0 (with_db [("42", subscription 1600000000 "expired")])) in
  DB s' = [("42", subscription 1600000000 "expired")] /\
  disk s' = Some [("42", subscription 1600000000 "expired")] /\
  new_events (with_db [("42", subscription 1600000000 "expired")]) s' =
    [EvLookup "req_1"; EvInvite 1700000601] /\
  saves (new_events (with_db [("42", subscription 1600000000 "expired")]) s') = 0%nat.
Proof.
  apply (no_credential_no_record cfg0 sample_json_loads world_without_invites
           form0 (with_db [("42", subscription 1600000000 "expired")])
           paid_request 42);
    [discriminate | reflexivity | reflexivity | reflexivity].
Defined.

Lemma activates_db cfg json_loads w form s tg_id :
  activates cfg json_loads w form s tg_id ->
  let s' := snd (instamojo_webhook cfg json_loads w form s) in
  DB s' = paid_db cfg w tg_id (emit (EvLookup (request_id form)) s) /\
  disk s' = Some (DB s').
Proof.
  intros (Hid & pr & Hgw & Hck & Hact). cbv zeta.
  rewrite (webhook_verified cfg json_loads _ _ _ _ _ Hid Hgw Hck).
  revert Hact. rewrite activate_eq.
  destruct (invite_link w _ _); [|discriminate].
  destruct (disk_ok w _); [|discriminate].
  intros _. split; reflexivity.
Qed.



(** C10, amended.  A delivery whose payment verifies is answered ["ok"], 200
    whatever the activation does.  When the activation raises, no message is
    sent and the data file keeps its content; when it is the issuance of the
    link that raises, [DB] is unchanged too; when it is the save that raises,
    [DB] already holds the new active record of the identity. *)
Theorem webhook_swallows_activation_failure cfg json_loads w form s pr tg_id :
  request_id form <> "" ->
  gateway w (tick s) (request_id form) = Some pr ->
  check_payment json_loads pr = Verified tg_id ->
  let s1 := emit (EvLookup (request_id form)) s in
  let out := instamojo_webhook cfg json_loads w form s in
  fst out = Resp "ok" 200 /\
  (fst (activate cfg w tg_id s1) = Exn ->
   (forall id text, ~ In (EvDM id text) (new_events s (snd out))) /\
   disk (snd out) = disk s /\
   ((fst (create_single_use_invite w (INVITE_LINK_TTL_SECONDS cfg) s1) = Exn /\
     DB (snd out) = DB s /\ saves (new_events s (snd out)) = 0%nat) \/
    (fst (create_single_use_invite w (INVITE_LINK_TTL_SECONDS cfg) s1) <> Exn /\
     DB (snd out) = paid_db cfg w tg_id s1 /\
     Py.dict_get (DB (snd out)) (Py.str_of_int tg_id) =
     Some (fresh_record
             (epoch (clock w (S (S (tick s1)))) + 86400 * SUBSCRIPTION_DAYS cfg)
             (iso (clock w (S (S (S (tick s1))))))) /\
     saves (new_events s (snd out)) = 1%nat))).
Proof.
  intros Hid Hgw Hck s1 out. subst out.
  rewrite (webhook_verified cfg json_loads _ _ _ _ _ Hid Hgw Hck). fold s1.
  split; [reflexivity|]. rewrite activate_eq, create_single_use_invite_fst.
  destruct (invite_link w (S (tick s1)) (invite_expiry cfg w s1)) as [link|].
  - destruct (disk_ok w _); [cbn [fst]; intros H; discriminate H|].
    intros _. cbn [snd fst DB disk].
    rewrite (new_events_app s _
               [EvLookup (request_id form); EvInvite (invite_expiry cfg w s1);
                EvSave (paid_db cfg w tg_id s1)])
      by (cbn [trace s1 emit]; now rewrite <- app_assoc).
    split; [|split; [reflexivity|]].
    + intros id text [H|[H|[H|[]]]]; discriminate.
    + right. split; [discriminate|].
      split; [reflexivity|]. split; [|reflexivity].
      unfold paid_db. now rewrite dict_get_set_same.
  - intros _. cbn [snd fst DB disk].
    rewrite (new_events_app s _
               [EvLookup (request_id form); EvInvite (invite_expiry cfg w s1)])
      by (cbn [trace s1 emit bump]; now rewrite <- app_assoc).
    split; [|split; [reflexivity|]].
    + intros id text [H|[H|[]]]; discriminate.
    + left. repeat split.
Qed.

Lemma webhook_swallows_activation_failure_witness :
  let s1 := emit (EvLookup (request_id form0)) initial_state in
  let out := instamojo_webhook cfg0 sample_json_loads world_with_full_disk
               form0 initial_state in
  fst out = Resp "ok" 200 /\
  (fst (activate cfg0 world_with_full_disk 42 s1) = Exn ->
   (forall id text, ~ In (EvDM id text) (new_events initial_state (snd out))) /\
   disk (snd out) = disk initial_state /\
   ((fst (create_single_use_invite world_with_full_disk
            (INVITE_LINK_TTL_SECONDS cfg0) s1) = Exn /\
     DB (snd out) = DB initial_state /\
     saves (new_events initial_state (snd out)) = 0%nat) \/
    (fst (create_single_use_invite world_with_full_disk
            (INVITE_LINK_TTL_SECONDS cfg0) s1) <> Exn /\
     DB (snd out) = paid_db cfg0 world_with_full_disk 42 s1 /\
     Py.dict_get (DB (snd out)) (Py.str_of_int 42) =
     Some (fresh_record
             (epoch (clock world_with_full_disk (S (S (tick s1))))
              + 86400 * SUBSCRIPTION_DAYS cfg0)
             (iso (clock world_with_full_disk (S (S (S (tick s1))))))) /\
     saves (new_events initial_state (snd out)) = 1%nat))).
Proof.
  exact (webhook_swallows_activation_failure cfg0 sample_json_loads
           world_with_full_disk form0 initial_state paid_request 42
           ltac:(discriminate) eq_refl eq_refl).
Defined.

(** C10 as worded fails when it is the save that raises: the delivery is
    answered, the activation has failed, the subscriber had no record, and
    [DB] now holds one. *)
Lemma activation_failure_leaves_record :
  fst (instamojo_webhook cfg0 sample_json_loads world_with_full_disk form0
         initial_state) = Resp "ok" 200 /\
  fst (activate cfg0 world_with_full_disk 42
         (emit (EvLookup "req_1") initial_state)) = Exn /\
  Py.dict_get (DB initial_state) "42" = None /\
  ~ left_without_record cfg0 sample_json_loads world_with_full_disk form0
      initial_state 42.
Proof.
  repeat split; try reflexivity. unfold left_without_record.
  vm_compute. discriminate.
Qed.

(** ** Consequences for single records of a sweep *)

(** A due record with a numeric key whose revocation goes through is
    expired. *)
Lemma sweep_expires w s uid rec id :
  Py.dict_wf (DB s) = true ->
  Py.dict_get (DB s) uid = Some rec ->
  is_due (sweep_now w s) rec = Some true ->
  Py.int_of_str uid = Some id ->
  (forall t, ban_ok w t id = true /\ unban_ok w t id = true) ->
  let s' := snd (expiry_job w s) in
  let evs := new_events s s' in
  exists r t,
    rec = PDict r /\
    Py.dict_get (DB s') uid = Some (mark_expired r (iso (clock w t))) /\
    In (EvBan id) evs /\ In (EvUnban id) evs /\ In (EvDM id (MsgRejoin uid)) evs.
Proof.
  intros Hwf Hget Hdue Hid Hok s' evs.
  destruct (expiry_job_records w s Hwf) as (_ & Hrecs & _).
  destruct (Hrecs uid rec Hget) as [[_ Hk]|Hex].
  - destruct (Hk Hdue id Hid) as [_ [t [H|H]]].
    + destruct (Hok t). congruence.
    + destruct (Hok (S t)). congruence.
  - destruct Hex as (r & id' & t & H1 & H2 & H3 & H4 & H5 & H6 & H7 & H8 & H9).
    assert (id' = id) by congruence. subst id'.
    exists r, (S (S t)). auto.
Qed.

(** A record is kept as it was when it is not due, when its key is not a
    number, or when its revocation raises at every attempt. *)
Lemma sweep_keeps w s uid rec :
  Py.dict_wf (DB s) = true ->
  Py.dict_get (DB s) uid = Some rec ->
  is_due (sweep_now w s) rec <> Some true \/ Py.int_of_str uid = None \/
  (exists id, Py.int_of_str uid = Some id /\
              forall t, ban_ok w t id = false \/ unban_ok w (S t) id = false) ->
  Py.dict_get (DB (snd (expiry_job w s))) uid = Some rec.
Proof.
  intros Hwf Hget Hwhy.
  destruct (expiry_job_records w s Hwf) as (_ & Hrecs & _).
  destruct (Hrecs uid rec Hget) as [[Hk _]|Hex]; [assumption|].
  destruct Hex as (r & id' & t & H1 & H2 & H3 & H4 & H5 & _).
  destruct Hwhy as [H|[H|(id & Hid & Hfail)]]; [contradiction | congruence |].
  assert (id' = id) by congruence. subst id'.
  destruct (Hfail t); congruence.
Qed.

(** Every call of the sweep is its one save, or a call for a record that was
    due and whose key is a number. *)
Lemma sweep_calls w s e :
  Py.dict_wf (DB s) = true ->
  In e (new_events s (snd (expiry_job w s))) ->
  e = EvSave (DB (snd (expiry_job w s))) \/
  exists uid rec id,
    Py.dict_get (DB s) uid = Some rec /\
    is_due (sweep_now w s) rec = Some true /\
    Py.int_of_str uid = Some id /\
    (e = EvBan id \/ e = EvUnban id \/ e = EvDM id (MsgRejoin uid)).
Proof.
  intros Hwf Hin.
  destruct (expiry_job_records w s Hwf) as (_ & _ & Hall & _).
  rewrite Forall_forall in Hall.
  destruct (Hall e Hin) as [(uid & rec & Hi & Hdue & id & Hid & He)|He]; [|now left].
  right. exists uid, rec, id. repeat split; auto. now apply In_dict_get.
Qed.

Lemma is_due_fields now_ts r st e :
  Py.dict_get r "status" = Some st ->
  Py.dict_get r "expiry_ts" = Some (PInt e) ->
  is_due now_ts (PDict r) = Some (Py.eq_str st "active" && (e <=? now_ts)).
Proof.
  intros Hst He. unfold is_due, Py.get. rewrite Hst, He.
  destruct (Py.eq_str st "active"); reflexivity.
Qed.

Lemma eq_str_true v t : Py.eq_str v t = true <-> v = PStr t.
Proof.
  destruct v; simpl; try (split; [discriminate | congruence]).
  rewrite String.eqb_eq. split; congruence.
Qed.

(** ** The sweep *)

(** C2. In a sweep run at [now_ts] in which the revocation of [id] goes
    through, a record that is [active] with [expiry_ts <= now_ts] is revoked
    (banned then unbanned) and reads [expired] afterwards, which covers
    [expiry_ts = now_ts - 1]; a record that is not active, or whose
    [expiry_ts] is later than [now_ts], which covers [now_ts + 1], is left
    as it was; and nobody else is revoked: every ban or unban of the sweep
    is for a record that was active and not later than [now_ts]. *)
Theorem sweep_threshold w s uid r st e id :
  Py.dict_wf (DB s) = true ->
  Py.dict_get (DB s) uid = Some (PDict r) ->
  Py.dict_get r "status" = Some st ->
  Py.dict_get r "expiry_ts" = Some (PInt e) ->
  Py.int_of_str uid = Some id ->
  (forall t, ban_ok w t id = true /\ unban_ok w t id = true) ->
  let now_ts := sweep_now w s in
  let s' := snd (expiry_job w s) in
  let evs := new_events s s' in
  (st = PStr "active" -> e <= now_ts ->
   In (EvBan id) evs /\ In (EvUnban id) evs /\
   exists t, Py.dict_get (DB s') uid = Some (mark_expired r (iso (clock w t)))) /\
  (st <> PStr "active" \/ now_ts < e ->
   Py.dict_get (DB s') uid = Some (PDict r)) /\
  (forall uid' rec', Py.dict_get (DB s) uid' = Some rec' ->
     is_due now_ts rec' <> Some true ->
     Py.dict_get (DB s') uid' = Some rec') /\
  (forall id', In (EvBan id') evs \/ In (EvUnban id') evs ->
     exists uid' rec',
       Py.dict_get (DB s) uid' = Some rec' /\
       is_due now_ts rec' = Some true /\ Py.int_of_str uid' = Some id').
Proof.
  intros Hwf Hget Hst He Hid Hok now_ts s' evs.
  pose proof (is_due_fields now_ts r st e Hst He) as Hdue.
  split; [|split; [|split]].
  - intros -> Hle.
    assert (Hd : is_due (sweep_now w s) (PDict r) = Some true).
    { fold now_ts. rewrite Hdue. simpl. apply Z.leb_le in Hle. now rewrite Hle. }
    destruct (sweep_expires w s uid (PDict r) id Hwf Hget Hd Hid Hok)
      as (r' & t & E & Hdb & Hb & Hu & _).
    inversion E; subst r'. repeat split; auto. now exists t.
  - intros Hnot. apply (sweep_keeps w s uid (PDict r) Hwf Hget). left.
    fold now_ts. rewrite Hdue. destruct Hnot as [Hna|Hlt].
    + destruct (Py.eq_str st "active") eqn:E; [|discriminate].
      apply eq_str_true in E. contradiction.
    + apply Z.leb_gt in Hlt. rewrite Hlt, andb_false_r. discriminate.
  - intros uid' rec' Hget' Hnd. apply (sweep_keeps w s uid' rec' Hwf Hget'). now left.
  - intros id' Hin.
    assert (Hcall : exists e0, In e0 evs /\ (e0 = EvBan id' \/ e0 = EvUnban id')).
    { destruct Hin as [H|H]; eexists; split; eauto. }
    destruct Hcall as (e0 & Hin0 & He0).
    destruct (sweep_calls w s e0 Hwf Hin0) as [Hs|(u & rc & i & Hg & Hd & Hi & Hev)].
    + destruct He0; congruence.
    + exists u, rc. repeat split; auto.
      destruct He0 as [-> | ->]; destruct Hev as [H|[H|H]]; congruence.
Qed.

Lemma sweep_threshold_witness :
  let w := calm_world in
  let s := with_db [("1", subscription 1699999999 "active");
                    ("2", subscription 1700000001 "active")] in
  let r := [("expiry_ts", PInt 1699999999);
            ("last_payment", PStr "2023-10-16T03:43:20+05:30");
            ("status", PStr "active")] in
  let now_ts := sweep_now w s in
  let s' := snd (expiry_job w s) in
  let evs := new_events s s' in
  (PStr "active" = PStr "active" -> 1699999999 <= now_ts ->
   In (EvBan 1) evs /\ In (EvUnban 1) evs /\
   exists t, Py.dict_get (DB s') "1" = Some (mark_expired r (iso (clock w t)))) /\
  (PStr "active" <> PStr "active" \/ now_ts < 1699999999 ->
   Py.dict_get (DB s') "1" = Some (PDict r)) /\
  (forall uid' rec', Py.dict_get (DB s) uid' = Some rec' ->
     is_due now_ts rec' <> Some true ->
     Py.dict_get (DB s') uid' = Some rec') /\
  (forall id', In (EvBan id') evs \/ In (EvUnban id') evs ->
     exists uid' rec',
       Py.dict_get (DB s) uid' = Some rec' /\
       is_due now_ts rec' = Some true /\ Py.int_of_str uid' = Some id').
Proof.
  intros w s r.
  exact (sweep_threshold w s "1" r (PStr "active") 1699999999 1
           eq_refl eq_refl eq_refl eq_refl eq_refl
           (fun t => conj eq_refl eq_refl)).
Defined.

(** C3. Of two due records, one whose revocation raises at every attempt and
    one whose revocation goes through: after the sweep the first is still
    there unchanged, hence still [active], although its revocation was
    attempted, and the second reads [expired]. *)
Theorem sweep_partial_failure w s uid1 rec1 id1 uid2 rec2 id2 :
  Py.dict_wf (DB s) = true ->
  Py.dict_get (DB s) uid1 = Some rec1 ->
  Py.dict_get (DB s) uid2 = Some rec2 ->
  is_due (sweep_now w s) rec1 = Some true ->
  is_due (sweep_now w s) rec2 = Some true ->
  Py.int_of_str uid1 = Some id1 ->
  Py.int_of_str uid2 = Some id2 ->
  (forall t, ban_ok w t id1 = false \/ unban_ok w (S t) id1 = false) ->
  (forall t, ban_ok w t id2 = true /\ unban_ok w t id2 = true) ->
  let s' := snd (expiry_job w s) in
  let evs := new_events s s' in
  (Py.dict_get (DB s') uid1 = Some rec1 /\
   Py.get rec1 "status" PNone = Some (PStr "active") /\
   In (EvBan id1) evs) /\
  (exists r2 t,
     rec2 = PDict r2 /\
     Py.dict_get (DB s') uid2 = Some (mark_expired r2 (iso (clock w t))) /\
     Py.get (mark_expired r2 (iso (clock w t))) "status" PNone
       = Some (PStr "expired")).
Proof.
  intros Hwf Hg1 Hg2 Hd1 Hd2 Hi1 Hi2 Hfail Hok s' evs. split.
  - split; [|split].
    + apply (sweep_keeps w s uid1 rec1 Hwf Hg1). right. right. now exists id1.
    + destruct (is_due_dict _ _ Hd1) as (r1 & -> & Hst). simpl. now rewrite Hst.
    + destruct (expiry_job_records w s Hwf) as (_ & Hrecs & _).
      destruct (Hrecs uid1 rec1 Hg1) as [[_ Hk]|Hex].
      * now destruct (Hk Hd1 id1 Hi1).
      * destruct Hex as (r & id & t & _ & _ & Hid & _ & _ & _ & Hin & _).
        assert (id = id1) by congruence. now subst id.
  - destruct (sweep_expires w s uid2 rec2 id2 Hwf Hg2 Hd2 Hi2 Hok)
      as (r2 & t & E & Hdb & _).
    exists r2, t. repeat split; auto.
    destruct (mark_expired_status r2 (iso (clock w t))) as (r' & E' & Hst & _).
    rewrite E'. simpl. now rewrite Hst.
Qed.

Lemma sweep_partial_failure_witness :
  let w := world_where_ban_fails 1 in
  let s := with_db [("1", subscription 1600000000 "active");
                    ("2", subscription 1600000000 "active")] in
  let s' := snd (expiry_job w s) in
  let evs := new_events s s' in
  (Py.dict_get (DB s') "1" = Some (subscription 1600000000 "active") /\
   Py.get (subscription 1600000000 "active") "status" PNone
     = Some (PStr "active") /\
   In (EvBan 1) evs) /\
  (exists r2 t,
     subscription 1600000000 "active" = PDict r2 /\
     Py.dict_get (DB s') "2" = Some (mark_expired r2 (iso (clock w t))) /\
     Py.get (mark_expired r2 (iso (clock w t))) "status" PNone
       = Some (PStr "expired")).
Proof.
  intros w s.
  exact (sweep_partial_failure w s "1" (subscription 1600000000 "active") 1
           "2" (subscription 1600000000 "active") 2
           eq_refl eq_refl eq_refl eq_refl eq_refl eq_refl eq_refl
           (fun t => or_introl eq_refl) (fun t => conj eq_refl eq_refl)).
Defined.




(** C7. A sweep calls [save_db] once when it has changed a record and not at
    all when it has not: either some record differs afterwards, there is
    one save, it is the last call and it writes the final store (which is
    then the content of the data file unless the write raises); or the
    store is as it was, nothing was saved and the data file is untouched.
    When no record is due, which covers the empty store, the sweep makes no
    call whatsoever. *)
Theorem sweep_saves_once_if_changed w s :
  Py.dict_wf (DB s) = true ->
  let now_ts := sweep_now w s in
  let s' := snd (expiry_job w s) in
  let evs := new_events s s' in
  (((exists uid, Py.dict_get (DB s') uid <> Py.dict_get (DB s) uid) /\
    saves evs = 1%nat /\
    (exists before, evs = before ++ [EvSave (DB s')]) /\
    (exists t, disk s' = if disk_ok w t then Some (DB s') else disk s)) \/
   (DB s' = DB s /\ saves evs = 0%nat /\ disk s' = disk s)) /\
  ((forall uid rec, Py.dict_get (DB s) uid = Some rec ->
      is_due now_ts rec <> Some true) ->
   evs = [] /\ DB s' = DB s /\ disk s' = disk s).
Proof.
  intros Hwf now_ts s' evs.
  destruct (expiry_job_spec w s Hwf)
    as (c & s1 & evs1 & Hrun & Ht & Hs & He & Hk & Hd & Hrecs & Hfalse & Htrue).
  assert (Hs' : s' = snd (if c then save_db w s1 else (Ok tt, s1)))
    by (subst s'; now rewrite Hrun).
  destruct c.
  - destruct (Htrue eq_refl) as (u & rc & Hget & Hex).
    destruct Hex as (r & id & t & -> & Hdue & _ & _ & _ & Hdb & _).
    rewrite save_db_eq in Hs'. cbn [snd] in Hs'.
    assert (Hevs : evs = evs1 ++ [EvSave (DB s1)]).
    { subst evs. apply new_events_app. rewrite Hs'. cbn [trace].
      rewrite Ht. now rewrite app_assoc. }
    assert (Hdb' : DB s' = DB s1) by now rewrite Hs'.
    split.
    + left. split; [|split; [|split]].
      * exists u. rewrite Hdb', Hdb, Hget. intros E.
        apply (mark_expired_neq _ r (iso (clock w (S (S t)))) Hdue). congruence.
      * rewrite Hevs, saves_app, Hs. reflexivity.
      * exists evs1. now rewrite Hdb'.
      * exists (tick s1). rewrite Hs'. cbn [disk DB]. now rewrite Hd.
    + intros Hnone. exfalso. apply (Hnone u (PDict r) Hget). exact Hdue.
  - cbn [snd] in Hs'. subst s1.
    assert (Hevs : evs = evs1) by (subst evs; now apply new_events_app).
    split.
    + right. rewrite Hevs. auto.
    + intros Hnone. rewrite Hevs. repeat split; auto.
      destruct evs1 as [|e0 rest]; [reflexivity|]. exfalso.
      inversion He as [|? ? (u & rc & Hin & Hdue & _) _]; subst.
      apply (Hnone u rc); [now apply In_dict_get | exact Hdue].
Qed.

Lemma sweep_saves_once_if_changed_witness :
  let w := calm_world in
  let s := with_db [("1", subscription 1699999999 "active");
                    ("2", subscription 1700000001 "active")] in
  let now_ts := sweep_now w s in
  let s' := snd (expiry_job w s) in
  let evs := new_events s s' in
  (((exists uid, Py.dict_get (DB s') uid <> Py.dict_get (DB s) uid) /\
    saves evs = 1%nat /\
    (exists before, evs = before ++ [EvSave (DB s')]) /\
    (exists t, disk s' = if disk_ok w t then Some (DB s') else disk s)) \/
   (DB s' = DB s /\ saves evs = 0%nat /\ disk s' = disk s)) /\
  ((forall uid rec, Py.dict_get (DB s) uid = Some rec ->
      is_due now_ts rec <> Some true) ->
   evs = [] /\ DB s' = DB s /\ disk s' = disk s).
Proof.
  intros w s. exact (sweep_saves_once_if_changed w s eq_refl).
Defined.

(** ** States the process can be in *)

Lemma record_ok_fresh e lp : record_ok (fresh_record e lp).
Proof. eexists. split; [reflexivity|]. left. split; reflexivity. Qed.

Lemma record_ok_expired r t : record_ok (mark_expired r t).
Proof.
  destruct (mark_expired_status r t) as (r' & E & Hst & Hat).
  exists r'. split; [assumption|]. right. split; [assumption|]. now exists t.
Qed.

Lemma store_ok_set d k v : store_ok d -> record_ok v -> store_ok (Py.dict_set d k v).
Proof.
  intros Hd Hv k' v' Hin. apply In_set_inv in Hin.
  destruct Hin as [Hin|[_ ->]]; [eapply Hd; eauto | assumption].
Qed.

Lemma sweep_body_store_ok w now_ts uid rec s :
  store_ok (DB s) -> store_ok (DB (snd (sweep_body w now_ts uid rec s))).
Proof.
  intros Hok. rewrite sweep_body_eq.
  destruct (is_due now_ts rec) as [[|]|]; try exact Hok.
  destruct (Py.int_of_str uid) as [id|]; try exact Hok.
  destruct (ban_ok w (tick s) id); try exact Hok.
  destruct (unban_ok w (S (tick s)) id); try exact Hok.
  destruct (Py.dict_get (DB s) uid) as [[| | | | | |r]|]; try exact Hok.
  simpl. apply store_ok_set; [assumption | apply record_ok_expired].
Qed.

Lemma sweep_loop_store_ok w now_ts items :
  forall c0 s, store_ok (DB s) ->
               store_ok (DB (snd (sweep_loop w now_ts items c0 s))).
Proof.
  induction items as [|[uid rec] rest IH]; intros c0 s Hok; simpl; [assumption|].
  pose proof (sweep_body_store_ok w now_ts uid rec s Hok) as H1.
  destruct (sweep_body w now_ts uid rec s) as [[c|] s1]; apply IH; exact H1.
Qed.

(** The store and the data file after a sweep. *)
Lemma expiry_job_store_ok w s :
  store_ok (DB s) ->
  let s' := snd (expiry_job w s) in
  store_ok (DB s') /\ (disk s' = disk s \/ disk s' = Some (DB s')).
Proof.
  intros Hok. cbv zeta. rewrite expiry_job_eq.
  pose proof (sweep_loop_store_ok w (sweep_now w s) (DB s) false (bump s) Hok) as H1.
  destruct (sweep_loop_frame w (sweep_now w s) (DB s) false (bump s) _ _
              (surjective_pairing _)) as (_ & Hd & _).
  destruct (sweep_loop w (sweep_now w s) (DB s) false (bump s)) as [c s1].
  cbn [fst snd] in *. destruct c.
  - rewrite save_db_eq. cbn [snd DB disk]. split; [assumption|].
    destruct (disk_ok w (tick s1)); [now right | now left].
  - cbn [snd]. split; [assumption | now left].
Qed.

(** The store and the data file after a webhook delivery. *)
Lemma instamojo_webhook_store_ok cfg json_loads w form s :
  store_ok (DB s) ->
  let s' := snd (instamojo_webhook cfg json_loads w form s) in
  store_ok (DB s') /\ (disk s' = disk s \/ disk s' = Some (DB s')).
Proof.
  intros Hok. cbv zeta. unfold instamojo_webhook.
  destruct (String.eqb (request_id form) ""); [now split; [|left]|].
  rewrite im_get_payment_request_eq.
  destruct (gateway w (tick s) (request_id form)) as [pr|]; [|now split; [|left]].
  destruct (check_payment json_loads pr) as [body| |tg_id]; try (now split; [|left]).
  rewrite activate_eq.
  destruct (invite_link w _ _) as [link|]; [|now split; [|left]].
  assert (Hpaid : store_ok (paid_db cfg w tg_id (emit (EvLookup (request_id form)) s)))
    by (apply store_ok_set; [exact Hok | apply record_ok_fresh]).
  destruct (disk_ok w _); cbn [snd DB disk]; split; auto.
Qed.

(** C6. In every state reached from the empty store by deliveries and
    sweeps, each record of [DB], and each record of the data file, carries
    [expired_at] exactly when its status is [expired]: the sweep writes both
    fields together, and a payment replaces the record by a fresh active one
    that has no [expired_at]. *)
Theorem expired_at_iff_expired cfg json_loads s :
  reachable cfg json_loads s ->
  forall d, d = DB s \/ disk s = Some d ->
  forall uid v, Py.dict_get d uid = Some v ->
  exists r, v = PDict r /\
    (Py.dict_get r "expired_at" <> None <->
     Py.dict_get r "status" = Some (PStr "expired")).
Proof.
  intros Hreach.
  assert (Hinv : store_ok (DB s) /\ forall d, disk s = Some d -> store_ok d).
  { induction Hreach as [s Hdb Hdisk|w form s _ [IHdb IHdisk]|w s _ [IHdb IHdisk]].
    - rewrite Hdb, Hdisk. split; [intros k v [] | discriminate].
    - destruct (instamojo_webhook_store_ok cfg json_loads w form s IHdb) as [H1 H2].
      split; [assumption|]. intros d Hd. destruct H2 as [H2|H2]; rewrite H2 in Hd.
      + now apply IHdisk.
      + inversion Hd; subst d. assumption.
    - destruct (expiry_job_store_ok w s IHdb) as [H1 H2].
      split; [assumption|]. intros d Hd. destruct H2 as [H2|H2]; rewrite H2 in Hd.
      + now apply IHdisk.
      + inversion Hd; subst d. assumption. }
  destruct Hinv as [Hdb Hdisk].
  intros d Hd uid v Hget.
  assert (Hok : store_ok d) by (destruct Hd as [->|Hd]; auto).
  destruct (Hok uid v (dict_get_In _ _ _ Hget)) as (r & -> & Hcases).
  exists r. split; [reflexivity|].
  destruct Hcases as [[Hst Hat]|[Hst [t Hat]]]; rewrite Hst, Hat; split; congruence.
Qed.

Lemma expired_at_iff_expired_witness :
  exists r,
    mark_expired [("expiry_ts", PInt (1700000003 + 86400 * 30));
                  ("last_payment", PStr "2023-11-15T03:43:20+05:30");
                  ("status", PStr "active")]
      "2027-01-15T13:30:00+05:30" = PDict r /\
    (Py.dict_get r "expired_at" <> None <->
     Py.dict_get r "status" = Some (PStr "expired")).
Proof.
  apply (expired_at_iff_expired cfg0 sample_json_loads
           (snd (expiry_job world_years_later
                   (snd (instamojo_webhook cfg0 sample_json_loads calm_world
                           form0 initial_state))))
           ltac:(apply reach_sweep, reach_webhook, reach_start; reflexivity)
           _ (or_introl eq_refl) "42").
  reflexivity.
Defined.

(** ** Verification of a payment *)

Lemma is_digit_range c :
  Py.is_digit c = true ->
  Py.is_space c = false /\ Ascii.eqb c "_"%char = false /\
  Ascii.eqb c "-"%char = false /\ Ascii.eqb c "+"%char = false /\
  0 <= Py.digit_val c.
Proof.
  unfold Py.is_digit, Py.is_space, Py.digit_val. intros H.
  apply andb_true_iff in H. destruct H as [H1 H2].
  apply Nat.leb_le in H1. apply Nat.leb_le in H2.
  repeat split.
  - apply orb_false_iff. split; apply andb_false_iff.
    + right. apply Nat.leb_gt. lia.
    + right. apply Nat.leb_gt. lia.
  - apply Ascii.eqb_neq. intros ->. vm_compute in H1, H2. lia.
  - apply Ascii.eqb_neq. intros ->. vm_compute in H1, H2. lia.
  - apply Ascii.eqb_neq. intros ->. vm_compute in H1, H2. lia.
  - lia.
Qed.

Lemma int_digits_all_digits s :
  Py.all_digits s = true ->
  forall acc b, 0 <= acc -> (s = EmptyString -> b = true) ->
                exists n, Py.int_digits acc b s = Some n /\ 0 <= n.
Proof.
  induction s as [|c s IH]; cbn [Py.all_digits Py.int_digits];
    intros Hall acc b Hacc Hb.
  - rewrite Hb by reflexivity. now exists acc.
  - apply andb_true_iff in Hall. destruct Hall as [Hc Hs].
    rewrite Hc. destruct (is_digit_range c Hc) as (_ & _ & _ & _ & Hv).
    apply IH; [assumption | lia | reflexivity].
Qed.

(** On a string of digits [int] does not raise, so the conversion that
    follows the [isdigit] test of the webhook always has a result. *)
Lemma isdigit_int_of_str t :
  Py.isdigit t = true -> exists n, Py.int_of_str t = Some n /\ 0 <= n.
Proof.
  destruct t as [|c t]; [discriminate|]. intros Hall.
  pose proof Hall as Hall'. simpl in Hall'. apply andb_true_iff in Hall'.
  destruct Hall' as [Hc _].
  destruct (is_digit_range c Hc) as (Hsp & _ & Hm & Hp & _).
  unfold Py.int_of_str. simpl Py.lstrip. rewrite Hsp, Hm, Hp.
  apply int_digits_all_digits; [exact Hall | lia | discriminate].
Qed.


(** X5. A delivery that does not verify leaves [DB] and the data file as
    they were and makes no call beyond the gateway lookup.  It is answered
    with status 200 unless an exception leaves the view. *)
Lemma unverified_is_noop cfg json_loads w form s :
  (forall pr tg_id, gateway w (tick s) (request_id form) = Some pr ->
                    check_payment json_loads pr <> Verified tg_id) ->
  let out := instamojo_webhook cfg json_loads w form s in
  DB (snd out) = DB s /\ disk (snd out) = disk s /\
  (new_events s (snd out) = [] \/
   new_events s (snd out) = [EvLookup (request_id form)]) /\
  ((exists body, fst out = Resp body 200) \/
   (fst out = Unhandled /\
    exists pr, gateway w (tick s) (request_id form) = Some pr /\
               check_payment json_loads pr = Raised)).
Proof.
  intros Hnot. cbv zeta. unfold instamojo_webhook.
  destruct (String.eqb (request_id form) "").
  { cbn [fst snd]. split; [reflexivity | split; [reflexivity | split]].
    - left. apply new_events_app. now rewrite app_nil_r.
    - left. eauto. }
  rewrite im_get_payment_request_eq.
  assert (Hev : new_events s (emit (EvLookup (request_id form)) s)
                = [EvLookup (request_id form)]) by now apply new_events_app.
  destruct (gateway w (tick s) (request_id form)) as [pr|] eqn:Hgw.
  2: { cbn [fst snd]. split; [reflexivity | split; [reflexivity | split]];
       [now right | left; eauto]. }
  destruct (check_payment json_loads pr) as [body| |tg_id] eqn:Hck.
  - cbn [fst snd]. split; [reflexivity | split; [reflexivity | split]];
      [now right | left; eauto].
  - cbn [fst snd]. split; [reflexivity | split; [reflexivity | split]];
      [now right | right; split; [reflexivity | now exists pr]].
  - exfalso. eapply Hnot; eauto.
Qed.

(** C8 at a failing input.  The gateway answers with an accepted status and
    a metadata text that decodes to a number instead of a mapping; the
    lookup of "telegram_user_id" on it raises outside every [try], so the
    view ends with an exception instead of acknowledging the delivery. *)
Theorem webhook_unhandled_on_bare_metadata cfg json_loads w form s :
  json_loads "42" = Some (PInt 42) ->
  request_id form <> "" ->
  gateway w (tick s) (request_id form) =
    Some (PDict [("status", PStr "Credit"); ("metadata", PStr "42")]) ->
  instamojo_webhook cfg json_loads w form s =
  (Unhandled, emit (EvLookup (request_id form)) s).
Proof.
  intros Hjson Hid Hgw. unfold instamojo_webhook.
  destruct (String.eqb_spec (request_id form) ""); [contradiction|].
  rewrite im_get_payment_request_eq, Hgw.
  unfold check_payment, read_meta. simpl. rewrite Hjson. reflexivity.
Qed.

Lemma webhook_unhandled_on_bare_metadata_witness :
  instamojo_webhook cfg0 sample_json_loads world_with_bare_metadata form0
    initial_state =
  (Unhandled, emit (EvLookup (request_id form0)) initial_state).
Proof.
  exact (webhook_unhandled_on_bare_metadata cfg0 sample_json_loads
           world_with_bare_metadata form0 initial_state
           eq_refl ltac:(discriminate) eq_refl).
Defined.

(** ** Handlers running on several threads *)

Lemma mark_block_eq w uid id s :
  mark_block w uid id s =
  match Py.dict_get (DB s) uid with
  | Some (PDict r) =>
      (Ok tt, {| DB := Py.dict_set (DB s) uid
                         (mark_expired r (iso (clock w (tick s))));
                 disk := disk s;
                 trace := trace s ++ [EvDM id (MsgRejoin uid)];
                 tick := S (S (tick s)) |})
  | _ => (Exn, s)
  end.
Proof.
  unfold mark_block, bind. unfold db_rec_set at 1.
  destruct (Py.dict_get (DB s) uid) as [[| | | | | |r]|]; try reflexivity.
  unfold now, db_rec_set, send_dm_blocking, mark_expired, emit. simpl.
  rewrite dict_get_set_same. simpl. rewrite dict_set_set. reflexivity.
Qed.

(** The thread of the loop does what the loop and the save do. *)
Lemma run_sweep_items w now_ts items :
  forall changed s,
    run_alone (sweep_items w now_ts items changed) s =
    let '(c, s') := sweep_loop w now_ts items changed s in
    if c then snd (save_db w s') else s'.
Proof.
  induction items as [|[uid rec] rest IH]; intros changed s.
  - simpl. destruct changed; reflexivity.
  - cbn [sweep_items sweep_loop]. rewrite sweep_body_eq.
    destruct (is_due now_ts rec) as [[|]|]; try apply IH.
    destruct (Py.int_of_str uid) as [id|]; try apply IH.
    cbn [run_alone]. unfold ban_chat_member.
    destruct (ban_ok w (tick s) id); [|apply IH].
    cbn [run_alone]. unfold unban_chat_member. cbn [tick emit].
    destruct (unban_ok w (S (tick s)) id); [|apply IH].
    cbn [run_alone]. rewrite mark_block_eq. cbn [DB emit].
    destruct (Py.dict_get (DB s) uid) as [[| | | | | |r]|]; try apply IH.
    rewrite IH. unfold expired_state. cbn [emit trace tick disk DB orb].
    rewrite <- !app_assoc. reflexivity.
Qed.

Lemma run_sweep_thread w s : run_alone (sweep_thread w) s = snd (expiry_job w s).
Proof.
  unfold sweep_thread. cbn [run_alone]. rewrite run_sweep_items, expiry_job_eq.
  unfold sweep_now.
  destruct (sweep_loop w (epoch (clock w (tick s))) (DB s) false (bump s)) as [c s1].
  destruct c; reflexivity.
Qed.

Lemma run_webhook_thread cfg json_loads w form s :
  run_alone (webhook_thread cfg json_loads w form) s =
  snd (instamojo_webhook cfg json_loads w form s).
Proof.
  unfold webhook_thread, instamojo_webhook.
  destruct (String.eqb (request_id form) ""); [reflexivity|].
  cbn [run_alone]. rewrite im_get_payment_request_eq.
  destruct (gateway w (tick s) (request_id form)) as [pr|]; [|reflexivity].
  destruct (check_payment json_loads pr) as [body| |tg_id]; try reflexivity.
  cbn [snd]. rewrite activate_eq.
  unfold activate_thread, create_single_use_invite, bind, now, invite_expiry.
  cbn [run_alone tick emit bump epoch].
  destruct (invite_link w _ _) as [link|]; [|reflexivity].
  cbn [run_alone]. unfold save_db, db_set, send_dm_blocking, emit, paid_db. simpl.
  destruct (disk_ok w _); simpl; rewrite <- ?app_assoc; reflexivity.
Qed.

(** The run in which the delivery of a payment of subscriber 42 lands inside
    the sweep that has just revoked 42: the record written by the payment is
    the one the sweep then marks expired. *)
Lemma delivery_inside_sweep_run :
  let s := with_db [("42", subscription 1600000000 "active")] in
  let sweep := sweep_thread calm_world in
  let delivery := webhook_thread cfg0 sample_json_loads calm_world form0 in
  statuses (DB (run delivery_inside_sweep sweep delivery s))
    = [("42", Some (PStr "expired"))] /\
  statuses (DB (run [] sweep delivery s)) = [("42", Some (PStr "active"))] /\
  statuses (DB (run [] delivery sweep s)) = [("42", Some (PStr "active"))].
Proof. repeat split; vm_compute; reflexivity. Qed.

(** C9 as worded fails: with the delivery inside the sweep the subscriber
    who has just paid ends [expired], which neither order of the two
    handlers run in turn produces. *)
Lemma delivery_inside_sweep_not_serialisable :
  ~ serialisable cfg0 sample_json_loads calm_world form0
      (with_db [("42", subscription 1600000000 "active")])
      delivery_inside_sweep.
Proof.
  unfold serialisable. cbv zeta.
  destruct delivery_inside_sweep_run as (-> & -> & ->).
  intros [H|H]; discriminate.
Qed.

(** C9, amended.  The handlers take no lock; a mutation is whole only when
    the handlers run in turn.  Run one after the other, in either order, the
    sweep and a delivery do exactly what the two handlers do in sequence,
    each finishing its assignments and its save before the other starts;
    and there is a schedule under which they do not: a delivery that runs
    between the revocation of the sweep and its assignment leaves a store
    that no order in turn produces. *)
Theorem handlers_whole_only_in_turn cfg json_loads w form s :
  run [] (sweep_thread w) (webhook_thread cfg json_loads w form) s
    = snd (instamojo_webhook cfg json_loads w form (snd (expiry_job w s))) /\
  run [] (webhook_thread cfg json_loads w form) (sweep_thread w) s
    = snd (expiry_job w (snd (instamojo_webhook cfg json_loads w form s))) /\
  exists w' form' s' sched,
    ~ (statuses (DB (run sched (sweep_thread w')
                       (webhook_thread cfg0 sample_json_loads w' form') s'))
         = statuses (DB (snd (instamojo_webhook cfg0 sample_json_loads w' form'
                                (snd (expiry_job w' s'))))) \/
       statuses (DB (run sched (sweep_thread w')
                       (webhook_thread cfg0 sample_json_loads w' form') s'))
         = statuses (DB (snd (expiry_job w'
                                (snd (instamojo_webhook cfg0 sample_json_loads
                                        w' form' s')))))).
Proof.
  split; [|split].
  - cbn [run]. now rewrite run_sweep_thread, run_webhook_thread.
  - cbn [run]. now rewrite run_webhook_thread, run_sweep_thread.
  - exists calm_world, form0, (with_db [("42", subscription 1600000000 "active")]),
      delivery_inside_sweep.
    destruct delivery_inside_sweep_run as (H1 & H2 & H3).
    cbn [run] in H2, H3.
    rewrite run_sweep_thread, run_webhook_thread in H2.
    rewrite run_webhook_thread, run_sweep_thread in H3.
    cbv zeta in H1. rewrite H1, H2, H3. intros [H|H]; discriminate.
Qed.

(** ** Decimal text of an identity *)

#[local] Ltac digit_step IH c v :=
  cbn [Py.int_digits]; change (Py.is_digit c) with true; cbv iota;
  change (Py.digit_val c) with v; rewrite ?Z.add_0_r; apply IH; auto.

Lemma int_digits_of_uint d :
  forall acc b,
    (d = Decimal.Nil -> b = true) ->
    Py.int_digits acc b (NilEmpty.string_of_uint d) = Some (digits_value d acc).
Proof.
  induction d; intros acc b Hb; cbn [NilEmpty.string_of_uint digits_value].
  - cbn [Py.int_digits]. rewrite Hb by reflexivity. reflexivity.
  - digit_step IHd "0"%char 0.
  - digit_step IHd "1"%char 1.
  - digit_step IHd "2"%char 2.
  - digit_step IHd "3"%char 3.
  - digit_step IHd "4"%char 4.
  - digit_step IHd "5"%char 5.
  - digit_step IHd "6"%char 6.
  - digit_step IHd "7"%char 7.
  - digit_step IHd "8"%char 8.
  - digit_step IHd "9"%char 9.
Qed.

Lemma all_digits_of_uint d : Py.all_digits (NilEmpty.string_of_uint d) = true.
Proof. induction d; simpl; auto. Qed.

Lemma digits_value_pos d :
  forall p, digits_value d (Z.pos p) = Z.pos (Pos.of_uint_acc d p).
Proof.
  induction d; intros p; cbn [digits_value Pos.of_uint_acc];
    try reflexivity.
  all: match goal with
       | |- digits_value _ ?a = Z.pos (Pos.of_uint_acc _ ?q) =>
           replace a with (Z.pos q) by lia
       end; apply IHd.
Qed.

Lemma digits_value_of_uint d : digits_value d 0 = Z.of_uint d.
Proof.
  unfold Z.of_uint.
  induction d; cbn [digits_value Pos.of_uint Z.of_N]; try reflexivity;
    try (change (10 * 0) with 0; exact IHd);
    change (10 * 0 + ?k) with k; apply digits_value_pos.
Qed.

Lemma int_of_str_digits s :
  Py.isdigit s = true -> Py.int_of_str s = Py.int_digits 0 false s.
Proof.
  destruct s as [|c s]; [discriminate|]. intros Hall.
  simpl in Hall. apply andb_true_iff in Hall. destruct Hall as [Hc _].
  destruct (is_digit_range c Hc) as (Hsp & _ & Hm & Hp & _).
  unfold Py.int_of_str. simpl Py.lstrip. now rewrite Hsp, Hm, Hp.
Qed.

Lemma string_of_uint_nonnil d :
  d <> Decimal.Nil ->
  NilZero.string_of_uint d = NilEmpty.string_of_uint d /\
  Py.isdigit (NilEmpty.string_of_uint d) = true.
Proof.
  intros Hd. split.
  - destruct d; try reflexivity. contradiction.
  - pose proof (all_digits_of_uint d) as Hall.
    destruct d; try contradiction; exact Hall.
Qed.

(** [int(str(n)) == n] and [str(n).isdigit()] for a number that is not
    negative. *)
Lemma int_of_str_of_int n :
  0 <= n ->
  Py.isdigit (Py.str_of_int n) = true /\
  Py.int_of_str (Py.str_of_int n) = Some n.
Proof.
  intros Hn. destruct n as [|p|p]; [split; reflexivity | | lia].
  unfold Py.str_of_int. cbn [Z.to_int NilZero.string_of_int].
  destruct (string_of_uint_nonnil (Pos.to_uint p)
              (DecimalPos.Unsigned.to_uint_nonnil p)) as [-> Hdig].
  split; [exact Hdig|].
  rewrite (int_of_str_digits _ Hdig), int_digits_of_uint, digits_value_of_uint.
  - f_equal. exact (DecimalZ.of_to (Z.pos p)).
  - intros E. destruct (DecimalPos.Unsigned.to_uint_nonnil p E).
Qed.

(** Two numbers that are not negative and differ have different texts. *)
Lemma str_of_int_inj n m :
  0 <= n -> 0 <= m -> Py.str_of_int n = Py.str_of_int m -> n = m.
Proof.
  intros Hn Hm E.
  destruct (int_of_str_of_int n Hn) as [_ H1].
  destruct (int_of_str_of_int m Hm) as [_ H2].
  rewrite E in H1. congruence.
Qed.

(** ** The data file *)

Lemma save_all_data_file json_dumps calls :
  forall fs before,
    DataFile.data_file fs = option_map json_dumps before ->
    DataFile.data_file (DataFile.save_all json_dumps calls fs)
    = option_map json_dumps (DataFile.last_saved calls before).
Proof.
  induction calls as [|[fault data] rest IH]; intros fs before Hfs; simpl.
  - exact Hfs.
  - destruct fault; apply IH; simpl; auto.
Qed.

Lemma last_saved_some calls :
  forall data, DataFile.last_saved calls (Some data) <> None.
Proof.
  induction calls as [|[fault d] rest IH]; intros data; simpl.
  - discriminate.
  - destruct fault; apply IH.
Qed.

(** X1. After any run of calls of [save_db], wherever each of them stops,
    [DATA_FILE] holds the whole text of the last call that ran to its end,
    or what it held before when there is none: never a part of a text.
    [load_db] then returns the data of that call, provided decoding gives
    back what was encoded. *)
Theorem save_db_all_or_nothing json_dumps json_loads calls fs :
  (forall data, In (DataFile.NoFault, data) calls ->
                json_loads (json_dumps data) = Some data) ->
  let fs' := DataFile.save_all json_dumps calls fs in
  match DataFile.last_saved calls None with
  | Some data =>
      DataFile.data_file fs' = Some (json_dumps data) /\
      DataFile.load_db json_loads true fs' = data
  | None =>
      DataFile.data_file fs' = DataFile.data_file fs /\
      forall readable, DataFile.load_db json_loads readable fs'
                       = DataFile.load_db json_loads readable fs
  end.
Proof.
  intros Hcodec fs'.
  assert (Hlast : forall cs before,
            (forall d, DataFile.last_saved cs before = Some d ->
                       before = Some d \/ In (DataFile.NoFault, d) cs)).
  { induction cs as [|[fault data] rest IH]; intros before d; simpl.
    - auto.
    - destruct fault; intros H; apply IH in H; destruct H as [H|H]; auto.
      inversion H; subst. auto. }
  assert (Hnone : forall cs fs0,
            DataFile.last_saved cs None = None ->
            DataFile.data_file (DataFile.save_all json_dumps cs fs0)
            = DataFile.data_file fs0).
  { induction cs as [|[fault data] rest IH]; intros fs0; simpl; [reflexivity|].
    destruct fault; intros H; try (rewrite IH by assumption; reflexivity).
    destruct (last_saved_some _ _ H). }
  destruct (DataFile.last_saved calls None) as [data|] eqn:Hl.
  - assert (Hin : In (DataFile.NoFault, data) calls).
    { destruct (Hlast _ _ _ Hl) as [H|H]; [discriminate | exact H]. }
    assert (Hfile : DataFile.data_file fs' = Some (json_dumps data)).
    { clear Hin Hcodec. subst fs'. revert fs Hl.
      induction calls as [|[fault d] rest IH]; intros fs Hl; simpl in *;
        [discriminate|].
      destruct fault; try (apply IH; exact Hl).
      rewrite (save_all_data_file json_dumps rest _ (Some d)) by reflexivity.
      now rewrite Hl. }
    split; [exact Hfile|].
    unfold DataFile.load_db. rewrite Hfile, (Hcodec _ Hin). reflexivity.
  - pose proof (Hnone calls fs Hl) as Hfile. fold fs' in Hfile.
    split; [exact Hfile|]. intros readable. unfold DataFile.load_db.
    now rewrite Hfile.
Qed.

Lemma save_db_all_or_nothing_witness :
  let calls := [(DataFile.WriteFails 1, PInt 42); (DataFile.NoFault, PDict []);
                (DataFile.ReplaceFails, PInt 42)] in
  let fs' := DataFile.save_all sample_json_dumps calls sample_files in
  DataFile.data_file fs' = Some (sample_json_dumps (PDict [])) /\
  DataFile.load_db sample_json_loads true fs' = PDict [].
Proof.
  intros calls.
  refine (save_db_all_or_nothing sample_json_dumps sample_json_loads calls
            sample_files _).
  intros data [H|[H|[H|[]]]]; inversion H; reflexivity.
Defined.

(** ** The manual trigger *)

(** X2. With a secret configured, a request to [/run-expiry] whose header is
    missing or different is answered 401 and nothing happens: no clock
    read, no call, no change.  With no secret configured, or with the right
    header, the sweep runs exactly as [expiry_job] does, and the request is
    answered with the time unless the sweep raised, which then leaves the
    view. *)
Theorem run_expiry_now_gate secret header w s :
  let out := run_expiry_now secret header w s in
  let job := expiry_job w s in
  (secret <> "" -> header <> Some secret -> out = (Cron401, s)) /\
  (secret = "" \/ header = Some secret ->
   DB (snd out) = DB (snd job) /\ disk (snd out) = disk (snd job) /\
   trace (snd out) = trace (snd job) /\
   (fst job = Ok tt -> fst out = CronRan (epoch (clock w (tick (snd job))))) /\
   (fst job = Exn -> fst out = CronUnhandled)).
Proof.
  cbv zeta. unfold run_expiry_now. split.
  - intros Hs Hh. destruct (String.eqb_spec secret ""); [contradiction|].
    destruct header as [h|]; [|reflexivity].
    destruct (String.eqb_spec h secret); [congruence | reflexivity].
  - intros Hopen.
    assert (Hgate : negb (secret =? "")%string
                    && negb match header with
                            | Some h => (h =? secret)%string
                            | None => false
                            end = false).
    { destruct Hopen as [-> | ->]; [reflexivity|].
      rewrite String.eqb_refl. apply andb_false_r. }
    rewrite Hgate. destruct (expiry_job w s) as [[[]|] s1]; cbn [fst snd].
    + repeat split; auto. discriminate.
    + repeat split; auto. discriminate.
Qed.

(** X3. A sweep raises only when its save does.  The records it has
    expired are then expired in [DB] alone: the subscribers were removed and
    told so, [DB] differs from what it was, and the data file still holds
    the content it had before the sweep. *)
Theorem expiry_job_raises_after_marking w s :
  Py.dict_wf (DB s) = true ->
  fst (expiry_job w s) = Exn ->
  let s' := snd (expiry_job w s) in
  let evs := new_events s s' in
  disk s' = disk s /\
  (exists before, evs = before ++ [EvSave (DB s')]) /\
  exists uid r t id,
    Py.dict_get (DB s) uid = Some (PDict r) /\
    Py.dict_get (DB s') uid = Some (mark_expired r (iso (clock w t))) /\
    Py.dict_get (DB s') uid <> Py.dict_get (DB s) uid /\
    Py.int_of_str uid = Some id /\
    In (EvBan id) evs /\ In (EvUnban id) evs /\
    In (EvDM id (MsgRejoin uid)) evs.
Proof.
  intros Hwf Hexn s' evs.
  destruct (expiry_job_spec w s Hwf)
    as (c & s1 & evs1 & Hrun & Ht & Hs & He & Hk & Hd & Hrecs & Hfalse & Htrue).
  assert (Hs' : s' = snd (if c then save_db w s1 else (Ok tt, s1)))
    by (subst s'; now rewrite Hrun).
  rewrite Hrun in Hexn. destruct c; [|discriminate].
  rewrite save_db_eq in Hs', Hexn. cbn [fst snd] in Hs', Hexn.
  destruct (disk_ok w (tick s1)); [discriminate|].
  assert (Hevs : evs = evs1 ++ [EvSave (DB s1)]).
  { subst evs. apply new_events_app. rewrite Hs'. cbn [trace].
    rewrite Ht. now rewrite app_assoc. }
  assert (Hdb' : DB s' = DB s1) by now rewrite Hs'.
  split; [rewrite Hs'; cbn [disk]; exact Hd|].
  split; [exists evs1; now rewrite Hdb'|].
  destruct (Htrue eq_refl) as (u & rc & Hget & Hex).
  destruct Hex as (r & id & t & -> & Hdue & Hid & _ & _ & Hdb & Hb & Hu & Hm).
  exists u, r, (S (S t)), id. rewrite Hdb', Hevs.
  repeat split; auto using in_or_app.
  rewrite Hdb, Hget. intros E.
  apply (mark_expired_neq _ r (iso (clock w (S (S t)))) Hdue). congruence.
Qed.

Lemma expiry_job_raises_after_marking_witness :
  let w := world_with_full_disk in
  let s := with_db [("42", subscription 1600000000 "active")] in
  let s' := snd (expiry_job w s) in
  let evs := new_events s s' in
  disk s' = disk s /\
  (exists before, evs = before ++ [EvSave (DB s')]) /\
  exists uid r t id,
    Py.dict_get (DB s) uid = Some (PDict r) /\
    Py.dict_get (DB s') uid = Some (mark_expired r (iso (clock w t))) /\
    Py.dict_get (DB s') uid <> Py.dict_get (DB s) uid /\
    Py.int_of_str uid = Some id /\
    In (EvBan id) evs /\ In (EvUnban id) evs /\
    In (EvDM id (MsgRejoin uid)) evs.
Proof.
  intros w s. exact (expiry_job_raises_after_marking w s eq_refl eq_refl).
Defined.

(** ** More on the webhook *)

Lemma unverified_is_noop_witness :
  let out := instamojo_webhook cfg0 sample_json_loads world_with_bare_metadata
               form0 initial_state in
  DB (snd out) = DB initial_state /\ disk (snd out) = disk initial_state /\
  (new_events initial_state (snd out) = [] \/
   new_events initial_state (snd out) = [EvLookup (request_id form0)]) /\
  ((exists body, fst out = Resp body 200) \/
   (fst out = Unhandled /\
    exists pr, gateway world_with_bare_metadata (tick initial_state)
                 (request_id form0) = Some pr /\
               check_payment sample_json_loads pr = Raised)).
Proof.
  refine (unverified_is_noop cfg0 sample_json_loads world_with_bare_metadata
            form0 initial_state _).
  intros pr tg_id Hgw. inversion Hgw; subst pr. discriminate.
Defined.

(** A verified identity is a number that is not negative. *)
Lemma verified_nonneg json_loads pr tg_id :
  check_payment json_loads pr = Verified tg_id -> 0 <= tg_id.
Proof.
  unfold check_payment.
  destruct (Py.get (Py.por pr (PDict [])) "status" (PStr "")) as [st|];
    [|discriminate].
  destruct (negb (accepted st)); [discriminate|].
  destruct (Py.get pr "metadata" PNone) as [m|]; [|discriminate].
  destruct (Py.get (read_meta json_loads m) "telegram_user_id" (PStr ""))
    as [v|]; [|discriminate].
  destruct (Py.str v) as [t|]; [|discriminate].
  destruct (Py.isdigit t) eqn:Hdig; [|discriminate].
  destruct (isdigit_int_of_str t Hdig) as (n & Hn & Hpos).
  rewrite Hn. intros H. inversion H. now subst.
Qed.

(** Every delivery ends in one of three ways: nothing but perhaps the
    lookup happened; or the payment of [tg_id] verified and the activation
    stopped at the link; or the record of [tg_id] was assigned. *)
Lemma instamojo_webhook_cases cfg json_loads w form s :
  let s' := snd (instamojo_webhook cfg json_loads w form s) in
  let s1 := emit (EvLookup (request_id form)) s in
  (DB s' = DB s /\ disk s' = disk s /\
   (new_events s s' = [] \/ new_events s s' = [EvLookup (request_id form)])) \/
  exists pr tg_id,
    gateway w (tick s) (request_id form) = Some pr /\
    check_payment json_loads pr = Verified tg_id /\
    ((invite_link w (S (tick s1)) (invite_expiry cfg w s1) = None /\
      DB s' = DB s /\ disk s' = disk s /\
      new_events s s' =
        [EvLookup (request_id form); EvInvite (invite_expiry cfg w s1)]) \/
     exists link,
       invite_link w (S (tick s1)) (invite_expiry cfg w s1) = Some link /\
       DB s' = paid_db cfg w tg_id s1 /\
       ((disk s' = Some (DB s') /\
         new_events s s' =
           [EvLookup (request_id form); EvInvite (invite_expiry cfg w s1);
            EvSave (DB s'); EvDM tg_id (MsgInvite link)]) \/
        (disk s' = disk s /\
         new_events s s' =
           [EvLookup (request_id form); EvInvite (invite_expiry cfg w s1);
            EvSave (DB s')]))).
Proof.
  cbv zeta. unfold instamojo_webhook.
  destruct (String.eqb_spec (request_id form) "") as [Hid|Hid].
  { left. cbn [snd]. repeat split. left. apply new_events_app.
    now rewrite app_nil_r. }
  rewrite im_get_payment_request_eq.
  assert (Hev : new_events s (emit (EvLookup (request_id form)) s)
                = [EvLookup (request_id form)]) by now apply new_events_app.
  destruct (gateway w (tick s) (request_id form)) as [pr|] eqn:Hgw;
    [|left; cbn [snd]; repeat split; now right].
  destruct (check_payment json_loads pr) as [body| |tg_id] eqn:Hck;
    try (left; cbn [snd]; repeat split; now right).
  right. exists pr, tg_id. split; [reflexivity|]. split; [exact Hck|].
  cbn [snd]. rewrite activate_eq.
  set (s1 := emit (EvLookup (request_id form)) s).
  destruct (invite_link w (S (tick s1)) (invite_expiry cfg w s1)) as [link|].
  - right. exists link. split; [reflexivity|].
    destruct (disk_ok w _); cbn [snd DB disk]; (split; [reflexivity|]).
    + left. split; [reflexivity|]. apply new_events_app. cbn [trace s1 emit].
      now rewrite <- app_assoc.
    + right. split; [reflexivity|]. apply new_events_app. cbn [trace s1 emit].
      now rewrite <- app_assoc.
  - left. split; [reflexivity|]. cbn [snd]. repeat split.
    apply new_events_app. cbn [trace s1 emit bump]. now rewrite <- app_assoc.
Qed.

(** X6. A delivery never removes a record, and it assigns at most one: when
    [DB] changes at all, a payment of some [tg_id] verified, the record
    under [str(tg_id)] is the fresh active one, and the record of every
    other key, so of every other subscriber, is what it was. *)
Theorem webhook_touches_one_record cfg json_loads w form s :
  let s' := snd (instamojo_webhook cfg json_loads w form s) in
  (forall k v, Py.dict_get (DB s) k = Some v ->
               exists v', Py.dict_get (DB s') k = Some v') /\
  (DB s' = DB s \/
   exists pr tg_id e lp,
     gateway w (tick s) (request_id form) = Some pr /\
     check_payment json_loads pr = Verified tg_id /\
     Py.dict_get (DB s') (Py.str_of_int tg_id) = Some (fresh_record e lp) /\
     (forall k, k <> Py.str_of_int tg_id ->
                Py.dict_get (DB s') k = Py.dict_get (DB s) k) /\
     (forall other, 0 <= other -> other <> tg_id ->
        Py.dict_get (DB s') (Py.str_of_int other)
        = Py.dict_get (DB s) (Py.str_of_int other))).
Proof.
  intros s'.
  assert (Hpaid : forall pr tg_id,
            check_payment json_loads pr = Verified tg_id ->
            DB s' = paid_db cfg w tg_id (emit (EvLookup (request_id form)) s) ->
            (forall k v, Py.dict_get (DB s) k = Some v ->
                         exists v', Py.dict_get (DB s') k = Some v') /\
            exists e lp,
              Py.dict_get (DB s') (Py.str_of_int tg_id) = Some (fresh_record e lp) /\
              (forall k, k <> Py.str_of_int tg_id ->
                         Py.dict_get (DB s') k = Py.dict_get (DB s) k) /\
              (forall other, 0 <= other -> other <> tg_id ->
                 Py.dict_get (DB s') (Py.str_of_int other)
                 = Py.dict_get (DB s) (Py.str_of_int other))).
  { intros pr tg_id Hck Hdb. rewrite Hdb. unfold paid_db. cbn [DB emit].
    pose proof (verified_nonneg _ _ _ Hck) as Hpos. split.
    - intros k v Hget. destruct (String.eqb_spec k (Py.str_of_int tg_id)) as [->|Hne].
      + rewrite dict_get_set_same. eauto.
      + rewrite dict_get_set_other by assumption. eauto.
    - eexists _, _. split; [apply dict_get_set_same|]. split.
      + intros k Hne. now apply dict_get_set_other.
      + intros other Ho Hne. apply dict_get_set_other.
        intros E. apply Hne. now apply str_of_int_inj. }
  pose proof (instamojo_webhook_cases cfg json_loads w form s) as Hcases.
  cbv zeta in Hcases. fold s' in Hcases.
  destruct Hcases
    as [(Hdb & _)|(pr & tg_id & Hgw & Hck & [(_ & Hdb & _)|(link & _ & Hdb & _)])].
  - split; [rewrite Hdb; eauto | now left].
  - split; [rewrite Hdb; eauto | now left].
  - destruct (Hpaid pr tg_id Hck Hdb) as [Hkeep (e & lp & H1 & H2 & H3)].
    split; [exact Hkeep|]. right. exists pr, tg_id, e, lp. auto.
Qed.


(** X8. The invite link asked of the platform is for one use and expires
    [max(60, ttl_seconds)] seconds after the clock reading: never sooner
    than 60 seconds, even for a zero or negative setting, and after
    [ttl_seconds] when that is 60 or more.  Issuing it is one call and
    leaves [DB] and the data file alone. *)
Theorem invite_expiry_floor w ttl_seconds s :
  let s' := snd (create_single_use_invite w ttl_seconds s) in
  let now_ts := epoch (clock w (tick s)) in
  exists expire_date,
    new_events s s' = [EvInvite expire_date] /\
    now_ts + 60 <= expire_date /\ now_ts + ttl_seconds <= expire_date /\
    (60 <= ttl_seconds -> expire_date = now_ts + ttl_seconds) /\
    (ttl_seconds <= 60 -> expire_date = now_ts + 60) /\
    DB s' = DB s /\ disk s' = disk s.
Proof.
  cbv zeta. unfold create_single_use_invite, bind, now. simpl.
  exists (epoch (clock w (tick s)) + Z.max 60 ttl_seconds).
  destruct (invite_link w (S (tick s)) _); cbn [snd];
    (split; [apply new_events_app; reflexivity|]); repeat split; lia.
Qed.

(** ** More on the sweep *)

Lemma dict_get_none_mem {V : Type} (d : list (string * V)) k :
  Py.dict_get d k = None -> Py.mem k (Py.keys d) = false.
Proof.
  unfold Py.keys. induction d as [|[k0 v0] d IH]; simpl; [reflexivity|].
  destruct (String.eqb k0 k); simpl; [discriminate | auto].
Qed.

Lemma dict_get_same_keys {V : Type} (d d' : list (string * V)) k v :
  Py.keys d' = Py.keys d -> Py.dict_get d' k = Some v ->
  exists v0, Py.dict_get d k = Some v0.
Proof.
  intros Hk Hget. destruct (Py.dict_get d k) as [v0|] eqn:E; [eauto|].
  apply dict_get_none_mem in E. rewrite <- Hk in E.
  apply dict_get_not_mem in E. congruence.
Qed.

Lemma mark_expired_other_fields r t f dflt :
  f <> "status" -> f <> "expired_at" ->
  Py.get (mark_expired r t) f dflt = Py.get (PDict r) f dflt.
Proof.
  intros H1 H2. unfold mark_expired, Py.get.
  now rewrite !dict_get_set_other by assumption.
Qed.

Lemma is_due_expired now_ts r t : is_due now_ts (mark_expired r t) = Some false.
Proof.
  destruct (mark_expired_status r t) as (r' & -> & Hst & _).
  unfold is_due, Py.get. now rewrite Hst.
Qed.

Lemma is_due_mono now1 now2 rec :
  now2 <= now1 -> is_due now2 rec = Some true -> is_due now1 rec = Some true.
Proof.
  intros Hle. unfold is_due.
  destruct (Py.get rec "status" PNone) as [st|]; [|discriminate].
  destruct (Py.eq_str st "active"); [|discriminate].
  destruct (Py.get rec "expiry_ts" (PInt 0)) as [e|]; [|discriminate].
  destruct (Py.int e) as [n|]; [|discriminate].
  intros H. injection H as H'. apply Z.leb_le in H'.
  f_equal. apply Z.leb_le. lia.
Qed.

(** A sweep of a store in which nothing is due makes no call and changes
    nothing. *)
Lemma sweep_idle w s :
  Py.dict_wf (DB s) = true ->
  (forall uid rec, Py.dict_get (DB s) uid = Some rec ->
                   is_due (sweep_now w s) rec <> Some true) ->
  new_events s (snd (expiry_job w s)) = [] /\
  DB (snd (expiry_job w s)) = DB s /\ disk (snd (expiry_job w s)) = disk s.
Proof.
  intros Hwf Hnone.
  destruct (expiry_job_spec w s Hwf)
    as (c & s1 & evs1 & Hrun & Ht & Hs & He & Hk & Hd & Hrecs & Hfalse & Htrue).
  rewrite Hrun. destruct c.
  - destruct (Htrue eq_refl) as (u & rc & Hget & (r & id & t & _ & Hdue & _)).
    destruct (Hnone u rc Hget Hdue).
  - cbn [snd]. rewrite (new_events_app s s1 evs1) by exact Ht.
    repeat split; auto.
    destruct evs1 as [|e0 rest]; [reflexivity|]. exfalso.
    inversion He as [|? ? (u & rc & Hin & Hdue & _) _]; subst.
    apply (Hnone u rc); [now apply In_dict_get | exact Hdue].
Qed.

(** X9. A sweep neither adds nor removes a record, and in a record it
    changes nothing but [status] and [expired_at]: every key is still there
    in its place, every other field of every record ([expiry_ts],
    [last_payment], anything else) reads as before, and a record that is
    not left as it was reads [expired]. *)
Theorem sweep_changes_only_status w s :
  Py.dict_wf (DB s) = true ->
  let s' := snd (expiry_job w s) in
  Py.keys (DB s') = Py.keys (DB s) /\
  forall uid rec, Py.dict_get (DB s) uid = Some rec ->
    exists rec',
      Py.dict_get (DB s') uid = Some rec' /\
      (forall field dflt, field <> "status" -> field <> "expired_at" ->
         Py.get rec' field dflt = Py.get rec field dflt) /\
      (rec' = rec \/ Py.get rec' "status" PNone = Some (PStr "expired")).
Proof.
  intros Hwf s'.
  destruct (expiry_job_records w s Hwf) as (Hk & Hrecs & _). fold s' in Hk, Hrecs.
  split; [exact Hk|]. intros uid rec Hget.
  destruct (Hrecs uid rec Hget) as [[Hkept _]|(r & id & t & -> & _ & _ & _ & _ & Hdb & _)].
  - exists rec. auto.
  - eexists. split; [exact Hdb|]. split.
    + intros field dflt H1 H2. now apply mark_expired_other_fields.
    + right. destruct (mark_expired_status r (iso (clock w (S (S t)))))
        as (r' & -> & Hst & _). simpl. now rewrite Hst.
Qed.

Lemma sweep_changes_only_status_witness :
  let w := calm_world in
  let s := with_db [("1", subscription 1699999999 "active");
                    ("2", subscription 1700000001 "active")] in
  let s' := snd (expiry_job w s) in
  Py.keys (DB s') = Py.keys (DB s) /\
  forall uid rec, Py.dict_get (DB s) uid = Some rec ->
    exists rec',
      Py.dict_get (DB s') uid = Some rec' /\
      (forall field dflt, field <> "status" -> field <> "expired_at" ->
         Py.get rec' field dflt = Py.get rec field dflt) /\
      (rec' = rec \/ Py.get rec' "status" PNone = Some (PStr "expired")).
Proof.
  intros w s. exact (sweep_changes_only_status w s eq_refl).
Defined.

(** X10. Sweeping twice revokes nobody twice.  After a sweep in which the
    revocation of every due record went through, a second sweep whose clock
    does not read later than the first finds nothing due: it makes no call
    at all and leaves [DB] and the data file as the first sweep left
    them. *)
Theorem second_sweep_is_idle w1 w2 s :
  Py.dict_wf (DB s) = true ->
  (forall uid rec, Py.dict_get (DB s) uid = Some rec ->
     is_due (sweep_now w1 s) rec = Some true ->
     exists id, Py.int_of_str uid = Some id /\
                forall t, ban_ok w1 t id = true /\ unban_ok w1 t id = true) ->
  let s1 := snd (expiry_job w1 s) in
  sweep_now w2 s1 <= sweep_now w1 s ->
  let s2 := snd (expiry_job w2 s1) in
  new_events s1 s2 = [] /\ DB s2 = DB s1 /\ disk s2 = disk s1.
Proof.
  intros Hwf Hrevoke s1 Hclock s2.
  destruct (expiry_job_records w1 s Hwf) as (Hk & Hrecs & _).
  fold s1 in Hk, Hrecs.
  assert (Hwf1 : Py.dict_wf (DB s1) = true).
  { unfold Py.dict_wf in *. now rewrite Hk. }
  apply (sweep_idle w2 s1 Hwf1).
  intros uid rec1 Hget1 Hdue2.
  destruct (dict_get_same_keys (DB s) (DB s1) uid rec1 Hk Hget1) as [rec Hget].
  destruct (Hrecs uid rec Hget) as [[Hkept Hwhy]|(r & id & t & _ & _ & _ & _ & _ & Hdb & _)].
  - assert (rec1 = rec) by congruence. subst rec1.
    pose proof (is_due_mono _ _ _ Hclock Hdue2) as Hdue1.
    destruct (Hrevoke uid rec Hget Hdue1) as (id & Hid & Hok).
    destruct (Hwhy Hdue1 id Hid) as [_ [t [H|H]]].
    + destruct (Hok t). congruence.
    + destruct (Hok (S t)). congruence.
  - rewrite Hdb in Hget1. inversion Hget1; subst rec1.
    rewrite is_due_expired in Hdue2. discriminate.
Qed.

Lemma second_sweep_is_idle_witness :
  let s := with_db [("1", subscription 1699999999 "active");
                    ("2", subscription 1700000001 "active")] in
  let s1 := snd (expiry_job world_years_later s) in
  let s2 := snd (expiry_job calm_world s1) in
  new_events s1 s2 = [] /\ DB s2 = DB s1 /\ disk s2 = disk s1.
Proof.
  intros s.
  refine (second_sweep_is_idle world_years_later calm_world s eq_refl _ _).
  - intros uid rec Hget _. unfold s, with_db in Hget.
    cbn [DB Py.dict_get] in Hget.
    destruct (String.eqb "1" uid) eqn:E1.
    + apply String.eqb_eq in E1. subst uid. exists 1. split; [reflexivity|].
      intros t. split; reflexivity.
    + destruct (String.eqb "2" uid) eqn:E2; [|discriminate].
      apply String.eqb_eq in E2. subst uid. exists 2. split; [reflexivity|].
      intros t. split; reflexivity.
  - vm_compute. discriminate.
Defined.

Lemma kick_shaped_unban ks :
  kick_shaped ks ->
  forall pre post id, ks = pre ++ EvUnban id :: post ->
                      exists pre', pre = pre' ++ [EvBan id].
Proof.
  induction 1 as [|i rest _ IH|i rest _ IH|i u rest Hu _ IH]; intros pre post id E.
  - destruct pre; discriminate.
  - destruct pre as [|a pre]; [discriminate|]. inversion E; subst.
    destruct (IH _ _ _ eq_refl) as [pre' ->]. now exists (EvBan i :: pre').
  - destruct pre as [|a [|b pre]]; try discriminate.
    + inversion E; subst. now exists [].
    + inversion E; subst.
      destruct (IH _ _ _ eq_refl) as [pre' ->].
      now exists (EvBan i :: EvUnban i :: pre').
  - destruct pre as [|a [|b [|c pre]]]; try discriminate.
    + inversion E; subst. now exists [].
    + inversion E; subst.
      destruct (IH _ _ _ eq_refl) as [pre' ->].
      now exists (EvBan i :: EvUnban i :: EvDM i (MsgRejoin u) :: pre').
Qed.

Lemma kick_shaped_dm ks :
  kick_shaped ks ->
  forall pre post id text, ks = pre ++ EvDM id text :: post ->
    exists pre' uid, pre = pre' ++ [EvBan id; EvUnban id] /\
                     text = MsgRejoin uid /\ Py.int_of_str uid = Some id.
Proof.
  induction 1 as [|i rest _ IH|i rest _ IH|i u rest Hu _ IH];
    intros pre post id text E.
  - destruct pre; discriminate.
  - destruct pre as [|a pre]; [discriminate|]. inversion E; subst.
    destruct (IH _ _ _ _ eq_refl) as (pre' & uid & -> & Ht & Hid).
    now exists (EvBan i :: pre'), uid.
  - destruct pre as [|a [|b pre]]; try discriminate.
    inversion E; subst.
    destruct (IH _ _ _ _ eq_refl) as (pre' & uid & -> & Ht & Hid).
    now exists (EvBan i :: EvUnban i :: pre'), uid.
  - destruct pre as [|a [|b [|c pre]]]; try discriminate.
    + inversion E; subst. now exists [], u.
    + inversion E; subst.
      destruct (IH _ _ _ _ eq_refl) as (pre' & uid & -> & Ht & Hid).
      now exists (EvBan i :: EvUnban i :: EvDM i (MsgRejoin u) :: pre'), uid.
Qed.

Lemma kick_shaped_no_save ks :
  kick_shaped ks -> forall d, ~ In (EvSave d) ks.
Proof.
  induction 1 as [|i rest _ IH|i rest _ IH|i u rest Hu _ IH]; intros d Hin;
    simpl in Hin.
  - exact Hin.
  - destruct Hin as [Hin|Hin]; [discriminate | exact (IH d Hin)].
  - destruct Hin as [Hin|[Hin|Hin]]; try discriminate. exact (IH d Hin).
  - destruct Hin as [Hin|[Hin|[Hin|Hin]]]; try discriminate. exact (IH d Hin).
Qed.

Lemma sweep_loop_kicks w now_ts items :
  forall c0 s,
    exists kicks,
      trace (snd (sweep_loop w now_ts items c0 s)) = trace s ++ kicks /\
      kick_shaped kicks.
Proof.
  induction items as [|[uid rec] rest IH]; intros c0 s; cbn [sweep_loop].
  - exists []. split; [now rewrite app_nil_r | constructor].
  - rewrite sweep_body_eq.
    destruct (is_due now_ts rec) as [[|]|]; try apply IH.
    destruct (Py.int_of_str uid) as [id|] eqn:Hid; try apply IH.
    destruct (ban_ok w (tick s) id).
    2: { destruct (IH c0 (emit (EvBan id) s)) as (ks & Ht & Hks).
         exists (EvBan id :: ks). split; [|now constructor].
         rewrite Ht. cbn [trace emit]. now rewrite <- app_assoc. }
    assert (Hfail : exists kicks,
              trace (snd (sweep_loop w now_ts rest c0
                            (emit (EvUnban id) (emit (EvBan id) s))))
              = trace s ++ kicks /\ kick_shaped kicks).
    { destruct (IH c0 (emit (EvUnban id) (emit (EvBan id) s))) as (ks & Ht & Hks).
      exists (EvBan id :: EvUnban id :: ks). split; [|now constructor].
      rewrite Ht. cbn [trace emit]. now rewrite <- !app_assoc. }
    destruct (unban_ok w (S (tick s)) id); [|exact Hfail].
    destruct (Py.dict_get (DB s) uid) as [[| | | | | |r]|]; try exact Hfail.
    destruct (IH (true || c0) (expired_state w uid id r s)) as (ks & Ht & Hks).
    exists (EvBan id :: EvUnban id :: EvDM id (MsgRejoin uid) :: ks).
    split; [|now constructor].
    rewrite Ht. cbn [trace expired_state]. now rewrite <- !app_assoc.
Qed.

(** X11. The calls of a sweep come record by record and in the order the
    expiry needs: every unban directly follows the ban of the same
    subscriber, every message is the renewal prompt and directly follows
    the ban and unban of the subscriber it goes to, and a save, when there
    is one, is the last call and writes the final [DB]. *)
Theorem sweep_calls_in_order w s :
  let s' := snd (expiry_job w s) in
  let evs := new_events s s' in
  (exists kicks, kick_shaped kicks /\
                 (evs = kicks \/ evs = kicks ++ [EvSave (DB s')])) /\
  (forall pre post id, evs = pre ++ EvUnban id :: post ->
     exists pre', pre = pre' ++ [EvBan id]) /\
  (forall pre post id text, evs = pre ++ EvDM id text :: post ->
     exists pre' uid, pre = pre' ++ [EvBan id; EvUnban id] /\
                      text = MsgRejoin uid /\ Py.int_of_str uid = Some id) /\
  (forall pre post d, evs = pre ++ EvSave d :: post ->
     post = [] /\ d = DB s').
Proof.
  intros s' evs.
  assert (Hshape : exists kicks, kick_shaped kicks /\
                     (evs = kicks \/ evs = kicks ++ [EvSave (DB s')])).
  { subst evs s'. rewrite expiry_job_eq.
    destruct (sweep_loop_kicks w (sweep_now w s) (DB s) false (bump s))
      as (ks & Ht & Hks).
    destruct (sweep_loop w (sweep_now w s) (DB s) false (bump s)) as [c s1].
    cbn [snd] in Ht. exists ks. split; [exact Hks|]. destruct c.
    - right. rewrite save_db_eq. cbn [snd DB]. apply new_events_app.
      cbn [trace]. rewrite Ht. cbn [trace bump]. now rewrite app_assoc.
    - left. cbn [snd]. apply new_events_app. exact Ht. }
  split; [exact Hshape|].
  destruct Hshape as (ks & Hks & Hev).
  assert (Hsplit : forall pre e post,
            (forall d, e <> EvSave d) ->
            ks ++ [EvSave (DB s')] = pre ++ e :: post ->
            exists post', ks = pre ++ e :: post').
  { intros pre e post Hne E.
    destruct (exists_last (l := e :: post) ltac:(discriminate)) as (l' & x & El).
    rewrite El, app_assoc in E. apply app_inj_tail in E. destruct E as [E Ex].
    destruct post as [|p post].
    - simpl in El. destruct l' as [|? [|? ?]]; try discriminate.
      inversion El; subst. destruct (Hne _ eq_refl).
    - destruct l' as [|y l']; [destruct post; discriminate|].
      inversion El; subst. now exists l'. }
  split; [|split].
  - intros pre post id E. destruct Hev as [Hev|Hev]; rewrite Hev in E.
    + eapply kick_shaped_unban; eauto.
    + destruct (Hsplit pre (EvUnban id) post ltac:(discriminate) E) as [post' E'].
      eapply kick_shaped_unban; eauto.
  - intros pre post id text E. destruct Hev as [Hev|Hev]; rewrite Hev in E.
    + eapply kick_shaped_dm; eauto.
    + destruct (Hsplit pre (EvDM id text) post ltac:(discriminate) E) as [post' E'].
      eapply kick_shaped_dm; eauto.
  - intros pre post d E. destruct Hev as [Hev|Hev]; rewrite Hev in E.
    + exfalso. apply (kick_shaped_no_save ks Hks d). rewrite E.
      apply in_or_app. right. now left.
    + destruct post as [|p post].
      * apply app_inj_tail in E. destruct E as [_ E]. inversion E. auto.
      * exfalso.
        destruct (exists_last (l := p :: post) ltac:(discriminate)) as (l' & x & El).
        rewrite El in E.
        change (pre ++ EvSave d :: l' ++ [x]) with (pre ++ (EvSave d :: l') ++ [x]) in E.
        rewrite app_assoc in E. apply app_inj_tail in E. destruct E as [E _].
        apply (kick_shaped_no_save ks Hks d). rewrite E.
        apply in_or_app. right. now left.
Qed.

(** ** Stores the program builds *)

Section Preserved.

(** A property of the bindings of [DB] that survives the two assignments
    of the sweep. *)
Variable P : string -> pyval -> Prop.
Hypothesis P_expired : forall k r t, P k (PDict r) -> P k (mark_expired r t).

Lemma sweep_body_preserves w now_ts uid rec s :
  (forall k v, In (k, v) (DB s) -> P k v) ->
  forall k v, In (k, v) (DB (snd (sweep_body w now_ts uid rec s))) -> P k v.
Proof.
  intros Hall. rewrite sweep_body_eq.
  destruct (is_due now_ts rec) as [[|]|]; try exact Hall.
  destruct (Py.int_of_str uid) as [id|]; try exact Hall.
  destruct (ban_ok w (tick s) id); try exact Hall.
  destruct (unban_ok w (S (tick s)) id); try exact Hall.
  destruct (Py.dict_get (DB s) uid) as [[| | | | | |r]|] eqn:Hget; try exact Hall.
  cbn [snd expired_state DB]. intros k v Hin. apply In_set_inv in Hin.
  destruct Hin as [Hin|[-> ->]]; [now apply Hall|].
  apply P_expired, Hall. now apply dict_get_In.
Qed.

Lemma sweep_loop_preserves w now_ts items :
  forall c0 s,
    (forall k v, In (k, v) (DB s) -> P k v) ->
    forall k v, In (k, v) (DB (snd (sweep_loop w now_ts items c0 s))) -> P k v.
Proof.
  induction items as [|[uid rec] rest IH]; intros c0 s Hall; cbn [sweep_loop];
    [exact Hall|].
  pose proof (sweep_body_preserves w now_ts uid rec s Hall) as H1.
  destruct (sweep_body w now_ts uid rec s) as [[c|] s1]; apply IH; exact H1.
Qed.

Lemma expiry_job_preserves w s :
  (forall k v, In (k, v) (DB s) -> P k v) ->
  forall k v, In (k, v) (DB (snd (expiry_job w s))) -> P k v.
Proof.
  intros Hall. rewrite expiry_job_eq.
  pose proof (sweep_loop_preserves w (sweep_now w s) (DB s) false (bump s) Hall)
    as H1.
  destruct (sweep_loop w (sweep_now w s) (DB s) false (bump s)) as [c s1].
  cbn [snd] in H1. destruct c; [rewrite save_db_eq|]; exact H1.
Qed.

End Preserved.

Lemma record_typed_fresh e lp : record_typed (fresh_record e lp).
Proof. eexists _, e, lp, "active". repeat split; auto. Qed.

Lemma record_typed_expired r t :
  record_typed (PDict r) -> record_typed (mark_expired r t).
Proof.
  intros (r0 & e & lp & st & E & He & Hlp & Hst & _). inversion E; subst r0.
  unfold mark_expired. eexists _, e, lp, "expired". split; [reflexivity|].
  split; [|split; [|split; [|now right]]].
  - rewrite !dict_get_set_other by (intro; discriminate). exact He.
  - rewrite !dict_get_set_other by (intro; discriminate). exact Hlp.
  - rewrite dict_get_set_other by (intro; discriminate). apply dict_get_set_same.
Qed.

Lemma store_typed_reachable cfg json_loads s :
  reachable cfg json_loads s -> store_typed (DB s).
Proof.
  induction 1 as [s Hdb _|w form s _ IH|w s _ IH].
  - rewrite Hdb. split; [reflexivity | intros k v []].
  - destruct IH as [Hwf Hall].
    pose proof (instamojo_webhook_cases cfg json_loads w form s) as Hcases.
    cbv zeta in Hcases.
    destruct Hcases
      as [(Hdb & _)|(pr & tg_id & _ & Hck & [(_ & Hdb & _)|(link & _ & Hdb & _)])];
      rewrite Hdb; try (split; assumption).
    unfold paid_db. cbn [DB emit]. split; [now apply dict_wf_set|].
    intros k v Hin. apply In_set_inv in Hin.
    destruct Hin as [Hin|[-> ->]]; [now apply Hall|].
    split; [|apply record_typed_fresh].
    exists tg_id. split; [exact (verified_nonneg _ _ _ Hck) | reflexivity].
  - destruct IH as [Hwf Hall]. split.
    + rewrite expiry_job_eq.
      destruct (sweep_loop_frame w (sweep_now w s) (DB s) false (bump s) _ _
                  (surjective_pairing _)) as (Hk & _).
      destruct (sweep_loop w (sweep_now w s) (DB s) false (bump s)) as [c s1].
      cbn [fst snd] in Hk. unfold Py.dict_wf in *.
      destruct c; [rewrite save_db_eq|]; cbn [snd DB]; now rewrite Hk.
    + apply (expiry_job_preserves
               (fun k v => (exists n, 0 <= n /\ k = Py.str_of_int n) /\
                           record_typed v)).
      * intros k r t [Hkey Hrec]. split; [exact Hkey|].
        now apply record_typed_expired.
      * exact Hall.
Qed.

(** X12. In every state reached from the empty store by deliveries and
    sweeps, the store is as the sweep expects it: each key is the decimal
    text of a subscriber number, so [int(uid)] does not raise and gives that
    number back; each record holds an integer [expiry_ts], a text
    [last_payment] and a status that is [active] or [expired]; and the due
    test never raises on it, so no record of such a store is ever skipped as
    malformed. *)
Theorem reachable_store_is_typed cfg json_loads s :
  reachable cfg json_loads s ->
  Py.dict_wf (DB s) = true /\
  forall uid rec, Py.dict_get (DB s) uid = Some rec ->
    (exists id, 0 <= id /\ uid = Py.str_of_int id /\
                Py.int_of_str uid = Some id) /\
    (exists r e lp st,
       rec = PDict r /\
       Py.dict_get r "expiry_ts" = Some (PInt e) /\
       Py.dict_get r "last_payment" = Some (PStr lp) /\
       Py.dict_get r "status" = Some (PStr st) /\
       (st = "active" \/ st = "expired") /\
       forall now_ts,
         is_due now_ts rec = Some (String.eqb st "active" && (e <=? now_ts))).
Proof.
  intros Hreach. destruct (store_typed_reachable _ _ _ Hreach) as [Hwf Hall].
  split; [exact Hwf|]. intros uid rec Hget.
  destruct (Hall uid rec (dict_get_In _ _ _ Hget))
    as [(n & Hn & ->) (r & e & lp & st & -> & He & Hlp & Hst & Hcases)].
  split.
  - exists n. destruct (int_of_str_of_int n Hn) as [_ Hback]. auto.
  - exists r, e, lp, st. repeat split; auto.
    intros now_ts. now rewrite (is_due_fields now_ts r (PStr st) e Hst He).
Qed.

Lemma reachable_store_is_typed_witness :
  let s := snd (expiry_job world_years_later
                  (snd (instamojo_webhook cfg0 sample_json_loads calm_world
                          form0 initial_state))) in
  Py.dict_wf (DB s) = true /\
  forall uid rec, Py.dict_get (DB s) uid = Some rec ->
    (exists id, 0 <= id /\ uid = Py.str_of_int id /\
                Py.int_of_str uid = Some id) /\
    (exists r e lp st,
       rec = PDict r /\
       Py.dict_get r "expiry_ts" = Some (PInt e) /\
       Py.dict_get r "last_payment" = Some (PStr lp) /\
       Py.dict_get r "status" = Some (PStr st) /\
       (st = "active" \/ st = "expired") /\
       forall now_ts,
         is_due now_ts rec = Some (String.eqb st "active" && (e <=? now_ts))).
Proof.
  intros s.
  apply (reachable_store_is_typed cfg0 sample_json_loads s).
  apply reach_sweep, reach_webhook, reach_start; reflexivity.
Defined.

(** ** From a payment to its expiry *)

Lemma is_due_fresh now_ts e lp : is_due now_ts (fresh_record e lp) = Some (e <=? now_ts).
Proof. reflexivity. Qed.

(** X13. A subscriber whose payment has just been activated keeps the
    record through every sweep whose clock reads before the expiry written
    by the payment, and loses it to the first sweep at or after that time
    whose revocation goes through: that sweep bans and unbans the
    subscriber, sends the renewal prompt and marks the record expired. *)
Theorem paid_until_expiry cfg json_loads w form s tg_id w2 :
  Py.dict_wf (DB s) = true ->
  activates cfg json_loads w form s tg_id ->
  let s1 := snd (instamojo_webhook cfg json_loads w form s) in
  let expiry := epoch (clock w (S (S (S (tick s)))))
                + 86400 * SUBSCRIPTION_DAYS cfg in
  let s2 := snd (expiry_job w2 s1) in
  let uid := Py.str_of_int tg_id in
  exists r,
    Py.dict_get (DB s1) uid = Some (PDict r) /\
    Py.dict_get r "expiry_ts" = Some (PInt expiry) /\
    Py.dict_get r "status" = Some (PStr "active") /\
    (sweep_now w2 s1 < expiry -> Py.dict_get (DB s2) uid = Some (PDict r)) /\
    (expiry <= sweep_now w2 s1 ->
     (forall t, ban_ok w2 t tg_id = true /\ unban_ok w2 t tg_id = true) ->
     In (EvBan tg_id) (new_events s1 s2) /\
     In (EvUnban tg_id) (new_events s1 s2) /\
     In (EvDM tg_id (MsgRejoin uid)) (new_events s1 s2) /\
     exists t, Py.dict_get (DB s2) uid
               = Some (mark_expired r (iso (clock w2 t)))).
Proof.
  intros Hwf Hact s1 expiry s2 uid.
  destruct (activates_db _ _ _ _ _ _ Hact) as [Hdb _]. fold s1 in Hdb.
  assert (Hpos : 0 <= tg_id).
  { destruct Hact as (_ & pr & _ & Hck & _). exact (verified_nonneg _ _ _ Hck). }
  destruct (int_of_str_of_int tg_id Hpos) as [_ Hback]. fold uid in Hback.
  assert (Hwf1 : Py.dict_wf (DB s1) = true).
  { rewrite Hdb. unfold paid_db. now apply dict_wf_set. }
  assert (Hget : exists lp, Py.dict_get (DB s1) uid = Some (fresh_record expiry lp)).
  { rewrite Hdb. unfold paid_db. eexists. now rewrite dict_get_set_same. }
  destruct Hget as [lp Hget]. eexists. split; [exact Hget|].
  split; [reflexivity|]. split; [reflexivity|]. split.
  - intros Hlt. apply (sweep_keeps w2 s1 uid _ Hwf1 Hget). left.
    rewrite is_due_fresh. apply Z.leb_gt in Hlt. rewrite Hlt. discriminate.
  - intros Hle Hok.
    assert (Hdue : is_due (sweep_now w2 s1) (fresh_record expiry lp) = Some true).
    { rewrite is_due_fresh. apply Z.leb_le in Hle. now rewrite Hle. }
    destruct (sweep_expires w2 s1 uid _ tg_id Hwf1 Hget Hdue Hback Hok)
      as (r & t & E & Hdb2 & Hb & Hu & Hm).
    inversion E; subst r. repeat split; auto. now exists t.
Qed.

Lemma paid_until_expiry_witness :
  let s1 := snd (instamojo_webhook cfg0 sample_json_loads calm_world form0
                   initial_state) in
  let expiry := epoch (clock calm_world (S (S (S (tick initial_state)))))
                + 86400 * SUBSCRIPTION_DAYS cfg0 in
  let s2 := snd (expiry_job world_years_later s1) in
  let uid := Py.str_of_int 42 in
  exists r,
    Py.dict_get (DB s1) uid = Some (PDict r) /\
    Py.dict_get r "expiry_ts" = Some (PInt expiry) /\
    Py.dict_get r "status" = Some (PStr "active") /\
    (sweep_now world_years_later s1 < expiry ->
     Py.dict_get (DB s2) uid = Some (PDict r)) /\
    (expiry <= sweep_now world_years_later s1 ->
     (forall t, ban_ok world_years_later t 42 = true
                /\ unban_ok world_years_later t 42 = true) ->
     In (EvBan 42) (new_events s1 s2) /\
     In (EvUnban 42) (new_events s1 s2) /\
     In (EvDM 42 (MsgRejoin uid)) (new_events s1 s2) /\
     exists t, Py.dict_get (DB s2) uid
               = Some (mark_expired r (iso (clock world_years_later t)))).
Proof.
  refine (paid_until_expiry cfg0 sample_json_loads calm_world form0
            initial_state 42 world_years_later eq_refl _).
  split; [discriminate|]. exists paid_request. repeat split.
Defined.

(** ** Asking for a payment *)

Section PayFacts.

Variable pc : Pay.PayConfig.
Variable quote : string -> string.
Variable json_dumps : pyval -> string.
Variable post : Pay.Post -> option pyval.


End PayFacts.

(** X15. The identity survives the trip through the gateway.  When [/pay]
    has made its request for [tg_id] and the gateway later answers the
    lookup with an accepted status and the metadata text of that request,
    the webhook verifies the payment for [tg_id] itself, provided the text
    is not empty and decodes to the mapping it encodes. *)
Theorem identity_round_trip pc quote json_dumps json_loads post tg_arg tg_id
  d st :
  snd (Pay.pay pc quote json_dumps post tg_arg)
    = [Pay.create_post pc quote json_dumps tg_id] ->
  Py.int_of_str (Pay.strip (match tg_arg with Some t => t | None => "" end))
    = Some tg_id ->
  let text := Pay.metadata_text json_dumps tg_id in
  text <> "" ->
  json_loads text
    = Some (PDict [("telegram_user_id", PStr (Py.str_of_int tg_id))]) ->
  Py.dict_get d "status" = Some st ->
  accepted st = true ->
  Py.dict_get d "metadata" = Some (PStr text) ->
  check_payment json_loads (PDict d) = Verified tg_id.
Proof.
  intros Hposts Hint text Hne Hcodec Hst Hacc Hmeta.
  assert (Hpos : 0 <= tg_id).
  { revert Hposts. unfold Pay.pay.
    destruct (Py.isdigit _) eqn:Hdig; cbn [negb snd];
      [|intros H; discriminate H].
    destruct (isdigit_int_of_str _ Hdig) as (n & Hn & Hpos). intros _.
    congruence. }
  destruct (int_of_str_of_int tg_id Hpos) as [Hdig Hback].
  unfold check_payment.
  assert (Htruthy : Py.por (PDict d) (PDict []) = PDict d).
  { destruct d; [discriminate | reflexivity]. }
  rewrite Htruthy. cbn [Py.get]. rewrite Hst, Hacc, Hmeta. cbn [negb].
  unfold read_meta, Py.por. cbn [Py.truthy].
  destruct (String.eqb_spec text "") as [E|_]; [contradiction|]. cbn [negb].
  rewrite Hcodec. cbn. rewrite Hdig, Hback. reflexivity.
Qed.

Lemma identity_round_trip_witness :
  check_payment identity_json_loads
    (PDict [("status", PStr "Credit");
            ("metadata", PStr (Pay.metadata_text identity_json_dumps 42))])
  = Verified 42.
Proof.
  refine (identity_round_trip sample_pay_config (fun t => t)
            identity_json_dumps identity_json_loads sample_post (Some " 042 ")
            42 [("status", PStr "Credit");
                ("metadata", PStr (Pay.metadata_text identity_json_dumps 42))]
            (PStr "Credit") eq_refl eq_refl _ eq_refl eq_refl eq_refl
            eq_refl).
  discriminate.
Defined.

(** ** The pay link *)

Lemma rstrip_no_space s :
  (forall c rest, s = String c rest -> Py.is_space c = false) ->
  Py.all_digits (match s with String _ rest => rest | EmptyString => "" end) = true ->
  Pay.rstrip s = s.
Proof.
  intros Hfirst Hrest.
  assert (Hdigits : forall t, Py.all_digits t = true -> Pay.rstrip t = t).
  { induction t as [|c t IH]; [reflexivity|]. cbn [Py.all_digits Pay.rstrip Py.all_space].
    intros H. apply andb_true_iff in H. destruct H as [Hc Ht].
    destruct (is_digit_range c Hc) as (Hsp & _). rewrite Hsp. cbn [andb].
    now rewrite IH. }
  destruct s as [|c rest]; [reflexivity|].
  cbn [Pay.rstrip Py.all_space]. rewrite (Hfirst c rest eq_refl). cbn [andb].
  now rewrite Hdigits.
Qed.

Lemma strip_digits t : Py.isdigit t = true -> Pay.strip t = t.
Proof.
  intros Hdig. destruct t as [|c t]; [discriminate|].
  pose proof Hdig as H. cbn [Py.isdigit Py.all_digits] in H.
  apply andb_true_iff in H. destruct H as [Hc Ht].
  destruct (is_digit_range c Hc) as (Hsp & _).
  unfold Pay.strip. cbn [Py.lstrip]. rewrite Hsp.
  apply rstrip_no_space; [|exact Ht].
  intros c0 rest E. inversion E; subst. exact Hsp.
Qed.

Lemma pay_of_decimal_text pc quote json_dumps post tg_id :
  0 <= tg_id ->
  snd (Pay.pay pc quote json_dumps post (Some (Py.str_of_int tg_id)))
  = [Pay.create_post pc quote json_dumps tg_id].
Proof.
  intros Hpos. unfold Pay.pay.
  destruct (int_of_str_of_int tg_id Hpos) as [Hdig Hback].
  rewrite (strip_digits _ Hdig), Hdig, Hback. cbn [negb].
  destruct (Pay.im_create_payment_request _ _ _ _ _) as [[url id]|]; reflexivity.
Qed.

(** X16. The link [/pay?tg=<id>] that [/start] hands to a subscriber is one
    [/pay] accepts: for a subscriber number that is not negative, [/pay]
    called with its decimal text makes its one request for that very
    number.  The text of a negative number is answered "Invalid user". *)
Theorem pay_accepts_its_own_links pc quote json_dumps post tg_id :
  let out := Pay.pay pc quote json_dumps post (Some (Py.str_of_int tg_id)) in
  (0 <= tg_id -> snd out = [Pay.create_post pc quote json_dumps tg_id]) /\
  (tg_id < 0 -> out = (Pay.PayInvalid, [])).
Proof.
  cbv zeta. split.
  - apply pay_of_decimal_text.
  - unfold Pay.pay. intros Hneg. destruct tg_id as [|p|p]; try lia.
    unfold Py.str_of_int. cbn [Z.to_int NilZero.string_of_int].
    assert (Hs : Pay.strip (String "-" (NilZero.string_of_uint (Pos.to_uint p)))
                 = String "-" (NilZero.string_of_uint (Pos.to_uint p))).
    { unfold Pay.strip. change (Py.lstrip (String "-" ?x)) with (String "-" x).
      apply rstrip_no_space.
      - intros c rest E. inversion E. reflexivity.
      - destruct (string_of_uint_nonnil (Pos.to_uint p)
                    (DecimalPos.Unsigned.to_uint_nonnil p)) as [-> _].
        apply all_digits_of_uint. }
    rewrite Hs. reflexivity.
Qed.

(** X17. The renewal link a sweep sends is one [/pay] accepts.  In a state
    reached from the empty store, every message of a sweep carries the key
    of the record it has just expired, and [/pay] called with that key
    makes its one request for the subscriber the message went to. *)
Theorem renewal_link_is_payable cfg json_loads s w id text :
  reachable cfg json_loads s ->
  In (EvDM id text) (new_events s (snd (expiry_job w s))) ->
  exists uid,
    text = MsgRejoin uid /\ uid = Py.str_of_int id /\
    (exists r, Py.dict_get (DB s) uid = Some (PDict r)) /\
    forall pc quote json_dumps post,
      snd (Pay.pay pc quote json_dumps post (Some uid))
      = [Pay.create_post pc quote json_dumps id].
Proof.
  intros Hreach Hin.
  destruct (store_typed_reachable _ _ _ Hreach) as [Hwf Hall].
  destruct (sweep_calls w s _ Hwf Hin)
    as [Hs|(uid & rec & id' & Hget & Hdue & Hid & [H|[H|H]])]; try discriminate.
  inversion H; subst id' text. clear H.
  destruct (Hall uid rec (dict_get_In _ _ _ Hget)) as [(n & Hn & ->) _].
  destruct (int_of_str_of_int n Hn) as [_ Hback].
  assert (n = id) by congruence. subst n.
  exists (Py.str_of_int id). split; [reflexivity|]. split; [reflexivity|].
  split.
  - destruct (is_due_dict _ _ Hdue) as (r & -> & _). eauto.
  - intros pc quote json_dumps post.
    now apply pay_of_decimal_text.
Qed.

Lemma renewal_link_is_payable_witness :
  exists uid,
    MsgRejoin "42" = MsgRejoin uid /\ uid = Py.str_of_int 42 /\
    (exists r,
       Py.dict_get
         (DB (snd (instamojo_webhook cfg0 sample_json_loads calm_world form0
                     initial_state))) uid = Some (PDict r)) /\
    forall pc quote json_dumps post,
      snd (Pay.pay pc quote json_dumps post (Some uid))
      = [Pay.create_post pc quote json_dumps 42].
Proof.
  refine (renewal_link_is_payable cfg0 sample_json_loads
            (snd (instamojo_webhook cfg0 sample_json_loads calm_world form0
                    initial_state))
            world_years_later 42 (MsgRejoin "42") _ _).
  - apply reach_webhook, reach_start; reflexivity.
  - vm_compute. auto.
Defined.

(** ** Edges of the webhook *)

(** X18. The request id of a delivery is [payment_request_id] when that
    field is there and not empty, else [payment_request]; it is empty
    exactly when both are missing or empty.  A delivery without a request
    id is answered "missing request id" with status 200 and does nothing,
    not even a lookup; a delivery with one starts with the lookup of that
    id. *)
Theorem webhook_without_request_id cfg json_loads w form s :
  let out := instamojo_webhook cfg json_loads w form s in
  (request_id form = "" <->
   (Py.dict_get form "payment_request_id" = None \/
    Py.dict_get form "payment_request_id" = Some "") /\
   (Py.dict_get form "payment_request" = None \/
    Py.dict_get form "payment_request" = Some "")) /\
  (forall x, Py.dict_get form "payment_request_id" = Some x -> x <> "" ->
             request_id form = x) /\
  (request_id form = "" -> out = (Resp "missing request id" 200, s)) /\
  (request_id form <> "" ->
   exists rest, new_events s (snd out) = EvLookup (request_id form) :: rest).
Proof.
  cbv zeta. split; [|split; [|split]].
  - unfold request_id.
    destruct (Py.dict_get form "payment_request_id") as [[|c r]|];
      destruct (Py.dict_get form "payment_request") as [[|c' r']|];
      split; intros H; try discriminate; auto;
      destruct H as [[H|H] [H'|H']]; discriminate.
  - intros x Hx Hne. unfold request_id. rewrite Hx.
    destruct x; [contradiction | reflexivity].
  - intros E. unfold instamojo_webhook. rewrite E. reflexivity.
  - intros Hne.
    pose proof (instamojo_webhook_cases cfg json_loads w form s) as Hcases.
    cbv zeta in Hcases.
    destruct Hcases as [(_ & _ & [Hev|Hev])|(pr & tg & _ & _ & Hact)].
    + exfalso. revert Hev. unfold instamojo_webhook.
      destruct (String.eqb_spec (request_id form) ""); [contradiction|].
      rewrite im_get_payment_request_eq.
      assert (Hl : forall st, snd (st : Reply * State) = emit (EvLookup (request_id form)) s ->
                              new_events s (snd st) <> []).
      { intros st ->. rewrite (new_events_app s _ [EvLookup (request_id form)])
          by reflexivity. discriminate. }
      destruct (gateway w (tick s) (request_id form)) as [pr|]; [|now apply Hl].
      destruct (check_payment json_loads pr) as [b| |tg]; try now apply Hl.
      cbn [snd]. rewrite activate_eq.
      destruct (invite_link w _ _); [destruct (disk_ok w _)|]; cbn [snd];
        intros H; apply (f_equal (@List.length Event)) in H;
        unfold new_events in H; rewrite length_skipn in H; cbn [trace emit bump] in H;
        rewrite !length_app in H; simpl in H; lia.
    + rewrite Hev. eauto.
    + destruct Hact as [(_ & _ & _ & Hev)|(link & _ & _ & [(_ & Hev)|(_ & Hev)])];
        rewrite Hev; eauto.
Qed.



(** X20. A record whose save failed is written by the next save that
    succeeds.  When the first delivery verifies [tg1], gets its link and
    fails to save, nothing is sent and the data file is as before; when a
    later delivery then activates another subscriber, the data file holds
    the whole [DB], in it the active record of [tg1], who was never sent a
    link. *)
Theorem unsaved_record_is_saved_later cfg json_loads w form1 form2 s pr1
  tg1 tg2 :
  request_id form1 <> "" ->
  gateway w (tick s) (request_id form1) = Some pr1 ->
  check_payment json_loads pr1 = Verified tg1 ->
  let s0 := emit (EvLookup (request_id form1)) s in
  fst (create_single_use_invite w (INVITE_LINK_TTL_SECONDS cfg) s0) <> Exn ->
  fst (activate cfg w tg1 s0) = Exn ->
  let s1 := snd (instamojo_webhook cfg json_loads w form1 s) in
  activates cfg json_loads w form2 s1 tg2 ->
  tg2 <> tg1 ->
  let s2 := snd (instamojo_webhook cfg json_loads w form2 s1) in
  disk s1 = disk s /\
  (forall id text, ~ In (EvDM id text) (new_events s s1)) /\
  disk s2 = Some (DB s2) /\
  exists e lp,
    Py.dict_get (DB s2) (Py.str_of_int tg1) = Some (fresh_record e lp).
Proof.
  intros Hid Hgw Hck s0 Hinv Hact s1 Hact2 Hne s2.
  assert (Hs1 : disk s1 = disk s /\
                (forall id text, ~ In (EvDM id text) (new_events s s1)) /\
                DB s1 = paid_db cfg w tg1 s0).
  { subst s1. rewrite (webhook_verified cfg json_loads _ _ _ _ _ Hid Hgw Hck).
    fold s0. revert Hinv Hact.
    rewrite activate_eq, create_single_use_invite_fst.
    destruct (invite_link w (S (tick s0)) (invite_expiry cfg w s0)) as [link|];
      [|intros H; now destruct H].
    destruct (disk_ok w _); [cbn [fst]; intros _ H; discriminate H|].
    intros _ _. cbn [snd DB disk].
    rewrite (new_events_app s _
               [EvLookup (request_id form1); EvInvite (invite_expiry cfg w s0);
                EvSave (paid_db cfg w tg1 s0)])
      by (cbn [trace s0 emit]; now rewrite <- app_assoc).
    repeat split. intros id text [H|[H|[H|[]]]]; discriminate. }
  destruct Hs1 as (Hdisk1 & Hdm1 & Hdb1).
  destruct (activates_db _ _ _ _ _ _ Hact2) as [Hdb2 Hdisk2].
  fold s2 in Hdb2, Hdisk2.
  split; [exact Hdisk1|]. split; [exact Hdm1|]. split; [exact Hdisk2|].
  assert (Hpos1 : 0 <= tg1) by exact (verified_nonneg _ _ _ Hck).
  assert (Hpos2 : 0 <= tg2).
  { destruct Hact2 as (_ & pr & _ & Hck2 & _). exact (verified_nonneg _ _ _ Hck2). }
  rewrite Hdb2. unfold paid_db at 1. cbn [DB emit].
  rewrite dict_get_set_other
    by (intros E; apply Hne; symmetry; now apply str_of_int_inj).
  rewrite Hdb1. unfold paid_db. eexists _, _. apply dict_get_set_same.
Qed.

Lemma unsaved_record_is_saved_later_witness :
  let w := world_where_disk_recovers in
  let s1 := snd (instamojo_webhook cfg0 sample_json_loads w form0 initial_state) in
  let s2 := snd (instamojo_webhook cfg0 sample_json_loads w form0 s1) in
  disk s1 = disk initial_state /\
  (forall id text, ~ In (EvDM id text) (new_events initial_state s1)) /\
  disk s2 = Some (DB s2) /\
  exists e lp,
    Py.dict_get (DB s2) (Py.str_of_int 42) = Some (fresh_record e lp).
Proof.
  intros w.
  refine (unsaved_record_is_saved_later cfg0 sample_json_loads w form0 form0
            initial_state paid_request 42 7 _ eq_refl eq_refl _ eq_refl _ _).
  - discriminate.
  - discriminate.
  - split; [discriminate|]. eexists. repeat split.
  - discriminate.
Defined.
